(** * Police Parking 3D: the simulation tick and the game progression

    A shallow embedding of [src/components/PoliceParkingGame.tsx].

    JavaScript numbers are read as real numbers: every arithmetic
    operation of the source is the exact operation on [R], with
    [Math.abs], [Math.min], [Math.max], [Math.sin], [Math.cos] as [Rabs],
    [Rmin], [Rmax], [sin], [cos].  Rounding, NaN and the infinities of
    IEEE doubles are outside the model.  Mutable refs ([velocity],
    [timeRef], [bumpsRef], the car's scene node) become fields of a state
    record that the frame callback takes and returns; the callbacks the
    frame invokes ([onSuccess], [onCrash]) are returned as a list, in call
    order, and interpreted on the controller's state afterwards. *)

From Stdlib Require Import ZArith Reals Lra List Bool String Arith Lia.
Import ListNotations.
Open Scope R_scope.

(** ** JavaScript numeric helpers *)

Module Math.

(** [Math.sign]: 1, -1 or 0. *)
Definition sign (x : R) : R :=
  if Rlt_dec 0 x then 1 else if Rlt_dec x 0 then -1 else 0.

(** [Math.atan2(y, x)], the angle of the point [(x, y)], in (-PI, PI]. *)
Definition atan2 (y x : R) : R :=
  if Rlt_dec 0 x then atan (y / x)
  else if Rlt_dec x 0 then
    (if Rle_dec 0 y then atan (y / x) + PI else atan (y / x) - PI)
  else if Rlt_dec 0 y then PI / 2
  else if Rlt_dec y 0 then - (PI / 2)
  else 0.

End Math.

(** Comparisons of numbers as booleans ([<], [<=], [>], [>=] of the source). *)
Definition ltb (a b : R) : bool := if Rlt_dec a b then true else false.
Definition leb (a b : R) : bool := if Rle_dec a b then true else false.
Definition gtb (a b : R) : bool := ltb b a.
Definition geb (a b : R) : bool := leb b a.

(** ** three.js [Vector3] and [Box3] *)

Record Vector3 : Type := vec3 { x : R; y : R; z : R }.

Module V3.
Definition add (a b : Vector3) : Vector3 :=
  vec3 (x a + x b) (y a + y b) (z a + z b).
Definition sub (a b : Vector3) : Vector3 :=
  vec3 (x a - x b) (y a - y b) (z a - z b).
Definition multiplyScalar (a : Vector3) (s : R) : Vector3 :=
  vec3 (x a * s) (y a * s) (z a * s).
Definition setY (a : Vector3) (v : R) : Vector3 := vec3 (x a) v (z a).
Definition addScaledVector (a v : Vector3) (s : R) : Vector3 :=
  vec3 (x a + x v * s) (y a + y v * s) (z a + z v * s).
(** [new Vector3(0, 0, 1).applyAxisAngle(new Vector3(0, 1, 0), angle)]:
    the unit z vector turned about the vertical axis. *)
Definition unitZ_applyAxisAngleY (angle : R) : Vector3 :=
  vec3 (sin angle) 0 (cos angle).
End V3.

Record Box3 : Type := box3 { bmin : Vector3; bmax : Vector3 }.

Module B3.
(** [Box3.containsPoint]: inclusive on every face. *)
Definition containsPoint (b : Box3) (p : Vector3) : bool :=
  geb (x p) (x (bmin b)) && leb (x p) (x (bmax b)) &&
  geb (y p) (y (bmin b)) && leb (y p) (y (bmax b)) &&
  geb (z p) (z (bmin b)) && leb (z p) (z (bmax b)).
(** [this.intersectsBox(box)]: the boxes overlap or touch on all three axes. *)
Definition intersectsBox (this box : Box3) : bool :=
  geb (x (bmax box)) (x (bmin this)) && leb (x (bmin box)) (x (bmax this)) &&
  geb (y (bmax box)) (y (bmin this)) && leb (y (bmin box)) (y (bmax this)) &&
  geb (z (bmax box)) (z (bmin this)) && leb (z (bmin box)) (z (bmax this)).
End B3.

(** ** Level catalog *)

Record Obstacle : Type := mkObstacle {
  position : Vector3;
  size : Vector3;
  height : option R
}.

Record Bounds : Type := mkBounds { width : R; bheight : R }.

Record LevelDefinition : Type := mkLevel {
  id : nat;
  name : string;
  start : Vector3;
  startRotation : R;
  goalPosition : Vector3;
  goalRotation : R;
  goalSize : Vector3;
  obstacles : list Obstacle;
  bounds : Bounds
}.

Record KeyboardState : Type := mkKeys {
  forward : bool;
  backward : bool;
  left : bool;
  right : bool;
  brake : bool
}.

Definition obst (px pz sx sy sz : R) : Obstacle :=
  mkObstacle (vec3 px 0 pz) (vec3 sx sy sz) None.

Definition level1 : LevelDefinition :=
  mkLevel 1 "Training Grounds"
    (vec3 (-12) 0 14) PI (vec3 12 0 (-10)) 0 (vec3 6 0 12)
    [ obst 0 0 4 2 16; obst 8 8 4 2 4; obst (-8) (-6) 4 2 6 ]
    (mkBounds 40 30).

Definition level2 : LevelDefinition :=
  mkLevel 2 "Downtown Alley"
    (vec3 (-16) 0 12) (PI / 2) (vec3 16 0 (-12)) (- PI / 2) (vec3 5 0 10)
    [ obst (-6) 6 3 3 6; obst 2 0 3 3 14; obst 10 (-8) 3 3 6;
      obst 0 (-12) 20 3 2 ]
    (mkBounds 48 36).

Definition level3 : LevelDefinition :=
  mkLevel 3 "Rooftop Pursuit"
    (vec3 18 0 14) PI (vec3 (-18) 0 (-14)) (- PI) (vec3 5.5 0 11)
    [ obst 0 0 6 5 6; obst (-10) (-6) 4 4 10; obst 10 6 5 4 8;
      obst (-5) 12 3 4 4; obst 12 (-10) 5 4 5 ]
    (mkBounds 52 40).

Definition LEVELS : list LevelDefinition := [level1; level2; level3].

(** ** Collision geometry *)

Definition computeBoundingBox (center size : Vector3) : Box3 :=
  let halfSize := V3.multiplyScalar size 0.5 in
  box3 (V3.sub center halfSize) (V3.add center halfSize).

Definition carSize : Vector3 := vec3 1.6 1.2 3.

Definition boundsBox (level : LevelDefinition) : Box3 :=
  computeBoundingBox (vec3 0 0 0)
    (vec3 (width (bounds level) - 1) 5 (bheight (bounds level) - 1)).

(** [obstacle.height ?? 2] *)
Definition heightOr2 (o : Obstacle) : R :=
  match height o with Some h => h | None => 2 end.

Definition obstacleBox (o : Obstacle) : Box3 :=
  computeBoundingBox
    (vec3 (x (position o)) (heightOr2 o / 2) (z (position o)))
    (vec3 (Rmax (x (size o) - 0.4) 0.5) (heightOr2 o)
          (Rmax (z (size o) - 0.4) 0.5)).

Definition obstacleBoxes (level : LevelDefinition) : list Box3 :=
  map obstacleBox (obstacles level).

Definition goalBox (level : LevelDefinition) : Box3 :=
  computeBoundingBox
    (vec3 (x (goalPosition level)) 0.6 (z (goalPosition level)))
    (vec3 (x (goalSize level) - 0.4) 1.2 (z (goalSize level) - 0.4)).

(** ** The game loop's mutable state *)

(** The car's scene node: only its position and its rotation about the
    vertical axis are read or written. *)
Record Group : Type := mkGroup { gposition : Vector3; rotation_y : R }.

Record LoopState : Type := mkLoop {
  carRef : option Group;
  velocity : R;
  goalPulse : R;
  timeRef : R;
  bumpsRef : nat
}.

(** A call of one of the two callbacks the loop receives. *)
Inductive Callback : Type :=
| onSuccess (elapsed : R) (bumps : nat)
| onCrash.

Definition resetCarState (level : LevelDefinition) (s : LoopState) : LoopState :=
  mkLoop
    (match carRef s with
     | Some _ => Some (mkGroup (V3.setY (start level) 0.4) (startRotation level))
     | None => None
     end)
    0 0 0 0%nat.

(** ** The frame callback of [GameLoop] *)

Definition accel (kb : KeyboardState) : R :=
  if forward kb then 22 else if backward kb then -16 else 0.
Definition brakeForce (kb : KeyboardState) : R := if brake kb then 35 else 0.
Definition maxSpeed (kb : KeyboardState) : R := if backward kb then 10 else 24.
Definition friction (kb : KeyboardState) : R :=
  if forward kb || backward kb || brake kb then 5 else 8.

(** [velocity.current += accel * delta] *)
Definition throttle (kb : KeyboardState) (v delta : R) : R :=
  v + accel kb * delta.

(** The [if (keyboard.brake)] block. *)
Definition braking (kb : KeyboardState) (v delta : R) : R :=
  if brake kb then
    if ltb (Rabs v) (brakeForce kb * delta) then 0
    else v - Math.sign v * brakeForce kb * delta
  else v.

(** [Math.max(Math.min(velocity.current, maxSpeed), -10)] *)
Definition clamp (kb : KeyboardState) (v : R) : R :=
  Rmax (Rmin v (maxSpeed kb)) (-10).

(** The [if (!keyboard.forward && !keyboard.backward)] block. *)
Definition damping (kb : KeyboardState) (v delta : R) : R :=
  if negb (forward kb) && negb (backward kb) then
    let d := Rmin (Rabs v) (friction kb * delta) in
    v - Math.sign v * d
  else v.

(** The velocity after acceleration, braking and clamping. *)
Definition clamped (kb : KeyboardState) (v delta : R) : R :=
  clamp kb (braking kb (throttle kb v delta) delta).

(** The velocity the steering and the translation of a tick work with. *)
Definition drive (kb : KeyboardState) (v delta : R) : R :=
  damping kb (clamped kb v delta) delta.

Definition steerInput (kb : KeyboardState) : R :=
  (if left kb then 1 else 0) - (if right kb then 1 else 0).
Definition steerIntensity (v : R) : R := Rmin (Rabs v / 10) 1.
Definition steerSpeed : R := 1.7.
Definition turnAmount (kb : KeyboardState) (v delta : R) : R :=
  steerInput kb * steerSpeed * steerIntensity v * delta.

(** The part of the state the collision code works on: the car's
    position and heading, the velocity and the bump counter. *)
Record Kin : Type := mkKin {
  kpos : Vector3;
  krot : R;
  kvel : R;
  kbumps : nat
}.

(** Velocity update, steering and translation. *)
Definition move (kb : KeyboardState) (delta : R) (k : Kin) : Kin :=
  let v := drive kb (kvel k) delta in
  let rot := krot k + turnAmount kb v delta in
  let forwardMove := V3.unitZ_applyAxisAngleY rot in
  mkKin (V3.addScaledVector (kpos k) forwardMove (v * delta)) rot v (kbumps k).

Definition outOfBounds (level : LevelDefinition) (p : Vector3) : bool :=
  negb (B3.containsPoint (boundsBox level) (V3.setY p 1)).

Definition resolveBounds (level : LevelDefinition) (lastPosition : Vector3)
    (k : Kin) : Kin :=
  if outOfBounds level (kpos k) then
    mkKin lastPosition (krot k) (kvel k * -0.3) (kbumps k + 1)
  else k.

Definition carBox (p : Vector3) : Box3 :=
  computeBoundingBox (V3.setY p 0.6)
    (vec3 (x carSize) (y carSize) (z carSize * 0.7)).

Definition collided (level : LevelDefinition) (p : Vector3) : bool :=
  existsb (fun box => B3.intersectsBox box (carBox p)) (obstacleBoxes level).

Definition resolveObstacles (level : LevelDefinition) (lastPosition : Vector3)
    (k : Kin) : Kin :=
  if collided level (kpos k) then
    mkKin lastPosition (krot k) (kvel k * -0.4) (kbumps k + 1)
  else k.

(** Everything up to, and not including, the goal test. *)
Definition settle (level : LevelDefinition) (kb : KeyboardState) (delta : R)
    (k : Kin) : Kin :=
  let lastPosition := kpos k in
  resolveObstacles level lastPosition
    (resolveBounds level lastPosition (move kb delta k)).

Definition inGoal (level : LevelDefinition) (p : Vector3) : bool :=
  B3.containsPoint (goalBox level) (V3.setY p 0.6).

Definition facingRequirement (level : LevelDefinition) (rot : R) : R :=
  Rabs (Math.atan2 (sin (rot - goalRotation level))
                   (cos (rot - goalRotation level))).

Definition arrives (level : LevelDefinition) (k : Kin) : bool :=
  inGoal level (kpos k) && ltb (Rabs (kvel k)) 1.2 &&
  ltb (facingRequirement level (krot k)) 0.3.

(** [Math.abs(velocity.current) > 35] *)
Definition overSpeed (v : R) : bool := gtb (Rabs v) 35.

(** What the collision code of a frame starts from: the car's pose, the
    velocity and the bump counter as the previous frame left them. *)
Definition kinOf (car : Group) (s : LoopState) : Kin :=
  mkKin (gposition car) (rotation_y car) (velocity s) (bumpsRef s).

Definition useFrame (level : LevelDefinition) (kb : KeyboardState)
    (s : LoopState) (delta : R) : LoopState * list Callback :=
  let pulse := goalPulse s + delta in
  let time := timeRef s + delta in
  match carRef s with
  | None => (mkLoop None (velocity s) pulse time (bumpsRef s), [])
  | Some car =>
      let k := settle level kb delta (kinOf car s) in
      let ok := arrives level k in
      let calls := if ok then [onSuccess time (kbumps k)] else [] in
      let v := if ok then 0 else kvel k in
      let s1 := mkLoop (Some (mkGroup (kpos k) (krot k))) v pulse time (kbumps k) in
      if overSpeed v then (resetCarState level s1, calls ++ [onCrash])
      else (s1, calls)
  end.

(** [n] frames in a row with the same keys and the same [delta]. *)
Fixpoint frames (level : LevelDefinition) (kb : KeyboardState) (delta : R)
    (n : nat) (s : LoopState) : LoopState :=
  match n with
  | O => s
  | S m => fst (useFrame level kb (frames level kb delta m s) delta)
  end.

(** ** The controller: [PoliceParkingGame] *)

Inductive GameState : Type :=
| intro
| playing (levelIndex : nat) (startedAt : R)
| success (levelIndex : nat) (elapsed : R) (bumps : nat)
| complete (totalTime : R) (totalBumps : nat).

Record App : Type := mkApp {
  gameState : GameState;
  resetSignal : nat;
  totalTime : R;
  totalBumps : nat
}.

Definition initialApp : App := mkApp intro 0 0 0.

Definition currentLevel (a : App) : option LevelDefinition :=
  nth_error LEVELS
    (match gameState a with
     | playing i _ | success i _ _ => i
     | _ => 0%nat
     end).

(** [now] is the reading of [performance.now()]. *)
Definition startLevel (now : R) (levelIndex : nat) (a : App) : App :=
  mkApp (playing levelIndex now) (resetSignal a + 1) (totalTime a) (totalBumps a).

Definition handleSuccess (elapsedSeconds : R) (bumps : nat) (a : App) : App :=
  match gameState a with
  | playing levelIndex _ =>
      let nextTotalTime := totalTime a + elapsedSeconds in
      let nextTotalBumps := (totalBumps a + bumps)%nat in
      mkApp
        (if Nat.eqb levelIndex (List.length LEVELS - 1)
         then complete nextTotalTime nextTotalBumps
         else success levelIndex elapsedSeconds bumps)
        (resetSignal a) nextTotalTime nextTotalBumps
  | _ => a
  end.

Definition handleCrash (a : App) : App :=
  mkApp (gameState a) (resetSignal a) (totalTime a) (totalBumps a + 1).

(** The window's [keydown] listener, for a key with the given [code]. *)
Definition handleKeyPress (now : R) (code : string) (a : App) : App :=
  let a1 :=
    if (String.eqb code "Enter" || String.eqb code "Space")%bool then
      match gameState a with
      | intro => startLevel now 0 a
      | success levelIndex _ _ => startLevel now (levelIndex + 1) a
      | complete _ _ => mkApp intro (resetSignal a) 0 0
      | playing _ _ => a
      end
    else a in
  match gameState a with
  | playing _ _ =>
      if String.eqb code "KeyR"
      then mkApp (gameState a1) (resetSignal a1 + 1) (totalTime a1) (totalBumps a1)
      else a1
  | _ => a1
  end.

(** The three buttons of the banners; each is rendered only in the state
    named, and does nothing when it is not on screen. *)
Definition clickStartPatrol (now : R) (a : App) : App :=
  match gameState a with
  | intro => startLevel now 0 a
  | _ => a
  end.

Definition clickNextAssignment (now : R) (a : App) : App :=
  match gameState a with
  | success levelIndex _ _ => startLevel now (levelIndex + 1) a
  | _ => a
  end.

Definition clickRunItBack (a : App) : App :=
  match gameState a with
  | complete _ _ => mkApp intro (resetSignal a) (totalTime a) (totalBumps a)
  | _ => a
  end.

(** What the player and the game loop can do to the controller. *)
Inductive Action : Type :=
| KeyDown (now : R) (code : string)
| ClickStartPatrol (now : R)
| ClickNextAssignment (now : R)
| ClickRunItBack
| Call (cb : Callback).

Definition dispatch (cb : Callback) (a : App) : App :=
  match cb with
  | onSuccess elapsed bumps => handleSuccess elapsed bumps a
  | onCrash => handleCrash a
  end.

Definition act (ac : Action) (a : App) : App :=
  match ac with
  | KeyDown now code => handleKeyPress now code a
  | ClickStartPatrol now => clickStartPatrol now a
  | ClickNextAssignment now => clickNextAssignment now a
  | ClickRunItBack => clickRunItBack a
  | Call cb => dispatch cb a
  end.

(** The game loop together with its controller: the over-speed branch of
    the frame is [onCrash(); resetCarState()]. *)
Record World : Type := mkWorld { app : App; loop : LoopState }.

Definition crashed (level : LevelDefinition) (w : World) : World :=
  mkWorld (handleCrash (app w)) (resetCarState level (loop w)).

Definition frame (kb : KeyboardState) (delta : R) (w : World) : World :=
  match currentLevel (app w) with
  | Some level =>
      let (s, calls) := useFrame level kb (loop w) delta in
      mkWorld (fold_left (fun a cb => dispatch cb a) calls (app w)) s
  | None => w
  end.

(** ** Vocabulary of the statements, and the states they are tried on *)

(** The velocity [v] moved toward zero by [a], stopping at zero: what
    "decays toward zero by [a] without overshooting" means. *)
Definition approach0 (v a : R) : R :=
  if Rlt_dec a v then v - a
  else if Rlt_dec v (- a) then v + a
  else 0.

(** Key states: nothing held, only forward, only the brake. *)
Definition noKeys : KeyboardState := mkKeys false false false false false.
Definition keysForward : KeyboardState := mkKeys true false false false false.
Definition keysBrake : KeyboardState := mkKeys false false false false true.

(** Whether the boundary test, and the obstacle test, of a tick fire. *)
Definition hitsBounds (level : LevelDefinition) (kb : KeyboardState)
    (delta : R) (k : Kin) : bool :=
  outOfBounds level (kpos (move kb delta k)).

Definition hitsObstacle (level : LevelDefinition) (kb : KeyboardState)
    (delta : R) (k : Kin) : bool :=
  collided level (kpos (resolveBounds level (kpos k) (move kb delta k))).

(** A fired test counts one bump. *)
Definition b2n (b : bool) : nat := if b then 1%nat else 0%nat.


(** Whether a frame's calls include [onCrash], and [onSuccess]. *)
Definition signalsCrashed (calls : list Callback) : bool :=
  existsb (fun c => match c with onCrash => true | _ => false end) calls.

Definition signalsArrived (calls : list Callback) : bool :=
  existsb (fun c => match c with onSuccess _ _ => true | _ => false end) calls.

(** A car entering the frame far above any speed the game allows. *)
Definition fastState : LoopState :=
  mkLoop (Some (mkGroup (vec3 0 0.4 12) 0)) 1000 0 0 0.

(** A car of level 1 rolling at velocity 10 toward the far wall
    ([z = 14.5] is the last [z] inside the boundary volume). *)
Definition wallState : LoopState :=
  mkLoop (Some (mkGroup (vec3 0 0.4 14.4) 0)) 10 0 0 0.

(** The car of level 1 at rest in the middle of the goal, facing the
    goal's heading. *)
Definition parkedState : LoopState :=
  mkLoop (Some (mkGroup (vec3 12 0.4 (-10)) 0)) 0 0 0 0.

(** A car of level 1 at [z = -9.5], heading for the long obstacle in the
    middle of the lot (its volume spans [-7.8 <= z <= 7.8]) at
    velocity 20. *)
Definition obstacleState : LoopState :=
  mkLoop (Some (mkGroup (vec3 0 0.4 (-9.5)) 0)) 20 0 0 0.

(** The lot itself: the floor that [ParkingLot] draws, [width] by
    [height] about the origin, with the walls on its edges. *)
Definition arenaBox (level : LevelDefinition) : Box3 :=
  computeBoundingBox (vec3 0 0 0)
    (vec3 (width (bounds level)) 5 (bheight (bounds level))).

(** The car's body at heading 0: its 1.6 by 3 footprint about [p]. *)
Definition bodyBox (p : Vector3) : Box3 := computeBoundingBox p carSize.

(** A finished session: 90 seconds and 4 bumps in total. *)
Definition finishedApp : App := mkApp (complete 90 4) 3 90 4.

(** Level 1 cleared in 12 seconds with one bump. *)
Definition clearedApp : App := mkApp (success 0 12 1) 1 12 1.

(** Level 1 in play, 5 seconds and 2 bumps into the level. *)
Definition drivingWorld : World :=
  mkWorld (mkApp (playing 0 1000) 1 0 0)
          (mkLoop (Some (mkGroup (vec3 3 0.4 12) 0.5)) 36 5 5 2).

(** ** Keyboard state: [useKeyboard] *)

(** The listener [onKey(pressed)] run on an event with the given [code]:
    the [switch] of the source, which replaces one field of the state. *)
Definition onKey (pressed : bool) (code : string) (prev : KeyboardState)
    : KeyboardState :=
  if (String.eqb code "ArrowUp" || String.eqb code "KeyW")%bool then
    mkKeys pressed (backward prev) (left prev) (right prev) (brake prev)
  else if (String.eqb code "ArrowDown" || String.eqb code "KeyS")%bool then
    mkKeys (forward prev) pressed (left prev) (right prev) (brake prev)
  else if (String.eqb code "ArrowLeft" || String.eqb code "KeyA")%bool then
    mkKeys (forward prev) (backward prev) pressed (right prev) (brake prev)
  else if (String.eqb code "ArrowRight" || String.eqb code "KeyD")%bool then
    mkKeys (forward prev) (backward prev) (left prev) pressed (brake prev)
  else if String.eqb code "Space" then
    mkKeys (forward prev) (backward prev) (left prev) (right prev) pressed
  else prev.

Inductive KeyEvent : Type :=
| keydown (code : string)
| keyup (code : string).

Definition keyCode (e : KeyEvent) : string :=
  match e with keydown c | keyup c => c end.

Definition keyPressed (e : KeyEvent) : bool :=
  match e with keydown _ => true | keyup _ => false end.

(** The state [useKeyboard] holds after the given events, oldest first. *)
Definition useKeyboard (events : list KeyEvent) : KeyboardState :=
  fold_left (fun s e => onKey (keyPressed e) (keyCode e) s) events
    (mkKeys false false false false false).

(** The five intents, the field of each, and the intent a key code is
    bound to. *)
Inductive Intent : Type := Forward | Backward | Left | Right | Brake.

Definition held (i : Intent) (s : KeyboardState) : bool :=
  match i with
  | Forward => forward s
  | Backward => backward s
  | Left => left s
  | Right => right s
  | Brake => brake s
  end.

Definition boundCodes (i : Intent) : list string :=
  match i with
  | Forward => ["ArrowUp"; "KeyW"]
  | Backward => ["ArrowDown"; "KeyS"]
  | Left => ["ArrowLeft"; "KeyA"]
  | Right => ["ArrowRight"; "KeyD"]
  | Brake => ["Space"]
  end%string.

Definition isBound (i : Intent) (code : string) : bool :=
  existsb (String.eqb code) (boundCodes i).

(** Whether the last event among [events] (oldest first) on a key of
    intent [i] was a press; [false] when there is none. *)
Fixpoint lastPress (i : Intent) (events : list KeyEvent) (before : bool) : bool :=
  match events with
  | [] => before
  | e :: rest =>
      lastPress i rest (if isBound i (keyCode e) then keyPressed e else before)
  end.

(** ** The goal marker of [ParkingLot] *)

Definition goalEmissiveIntensity (goalPulse : R) : R :=
  0.15 + 0.15 * sin (goalPulse * 4).

Definition ringOpacity (goalPulse : R) : R :=
  0.35 + 0.25 * sin (goalPulse * 6).

Definition ringInnerRadius (level : LevelDefinition) : R :=
  Rmin (x (goalSize level)) (z (goalSize level)) * 0.45.

Definition ringOuterRadius (level : LevelDefinition) : R :=
  Rmin (x (goalSize level)) (z (goalSize level)) * 0.5.

(** ** The whole game: controller, loop and the effect between them *)

(** The index [currentLevel] reads [LEVELS] at. *)
Definition levelIndexOf (a : App) : nat :=
  match gameState a with
  | playing i _ | success i _ _ => i
  | _ => 0%nat
  end.

(** The level number of the HUD: [levelIndex + 1], or 1. *)
Definition hudLevel (a : App) : nat :=
  match gameState a with
  | playing i _ | success i _ _ => (i + 1)%nat
  | _ => 1%nat
  end.

(** [useEffect(() => { resetCarState(); }, [level, resetSignal,
    resetCarState])]: after a render in which the level or the reset
    signal changed, the car state is reset for the new level.  The level
    object and [resetCarState] change exactly when the index into
    [LEVELS] does.  The effect is taken to run before the next frame. *)
Definition carEffect (before after : App) (s : LoopState) : LoopState :=
  if (Nat.eqb (levelIndexOf before) (levelIndexOf after)
      && Nat.eqb (resetSignal before) (resetSignal after))%bool
  then s
  else match currentLevel after with
       | Some level => resetCarState level s
       | None => s
       end.

(** A command or callback, followed by the effect. *)
Definition perform (ac : Action) (w : World) : World :=
  mkWorld (act ac (app w)) (carEffect (app w) (act ac (app w)) (loop w)).

(** A frame, followed by the effect. *)
Definition tick (kb : KeyboardState) (delta : R) (w : World) : World :=
  mkWorld (app (frame kb delta w))
    (carEffect (app w) (app (frame kb delta w)) (loop (frame kb delta w))).

(** The game once mounted: the intro screen, the car (created at
    [0, 0.4, 0]) reset to the start of the first level. *)
Definition initialWorld : World :=
  mkWorld initialApp
    (resetCarState level1 (mkLoop (Some (mkGroup (vec3 0 0.4 0) 0)) 0 0 0 0)).

Inductive WorldStep : Type :=
| Frame (kb : KeyboardState) (delta : R)
| Perform (ac : Action).

Definition worldStep (st : WorldStep) (w : World) : World :=
  match st with
  | Frame kb delta => tick kb delta w
  | Perform ac => perform ac w
  end.

(** The states of the controller, and of the game, after a run of
    steps (oldest first). *)
Definition runApp (acs : list Action) (a : App) : App :=
  fold_left (fun a ac => act ac a) acs a.

Definition runWorld (sts : list WorldStep) (w : World) : World :=
  fold_left (fun w st => worldStep st w) sts w.

(** A position that passes the boundary test and touches no obstacle. *)
Definition clear (level : LevelDefinition) (p : Vector3) : bool :=
  (negb (outOfBounds level p) && negb (collided level p))%bool.

(** The level index is one [LEVELS] has, and after a success there is a
    next level. *)
Definition validApp (a : App) : Prop :=
  match gameState a with
  | playing i _ => (i < 3)%nat
  | success i _ _ => (i + 1 < 3)%nat
  | _ => True
  end.

(** Complete's payload agrees with the totals. *)
Definition payloadAgrees (a : App) : Prop :=
  match gameState a with
  | complete t b => t = totalTime a /\ b = totalBumps a
  | _ => True
  end.

(** The shortest session: only the last level's time and bumps differ
    from zero. *)
Definition quickSession : list Action :=
  [ ClickStartPatrol 0; Call (onSuccess 0 0);
    ClickNextAssignment 0; Call (onSuccess 0 0);
    ClickNextAssignment 0; Call (onSuccess 7 2) ].

(** The car is in the scene, inside the boundary volume of the current
    level and clear of its obstacles. *)
Definition carClear (w : World) : Prop :=
  validApp (app w) /\
  exists level car,
    currentLevel (app w) = Some level /\ In level LEVELS /\
    carRef (loop w) = Some car /\
    clear level (gposition car) = true.

(** The commands that start the game from the intro screen (Enter,
    Space, the "Start Patrol" button) and those that advance from a
    cleared level (Enter, Space, the "Next Assignment" button). *)
Definition startsGame (ac : Action) : bool :=
  match ac with
  | KeyDown _ code => (String.eqb code "Enter" || String.eqb code "Space")%bool
  | ClickStartPatrol _ => true
  | _ => false
  end.

Definition advances (ac : Action) : bool :=
  match ac with
  | KeyDown _ code => (String.eqb code "Enter" || String.eqb code "Space")%bool
  | ClickNextAssignment _ => true
  | _ => false
  end.

(** ** Reasoning about comparisons and the numeric helpers *)

Lemma ltb_true (a b : R) : ltb a b = true <-> a < b.
Proof. unfold ltb; destruct (Rlt_dec a b); split; intros; try easy; lra. Qed.

Lemma ltb_false (a b : R) : ltb a b = false <-> b <= a.
Proof. unfold ltb; destruct (Rlt_dec a b); split; intros; try easy; lra. Qed.

Lemma leb_true (a b : R) : leb a b = true <-> a <= b.
Proof. unfold leb; destruct (Rle_dec a b); split; intros; try easy; lra. Qed.

Lemma leb_false (a b : R) : leb a b = false <-> b < a.
Proof. unfold leb; destruct (Rle_dec a b); split; intros; try easy; lra. Qed.

Lemma gtb_true (a b : R) : gtb a b = true <-> b < a.
Proof. apply ltb_true. Qed.

Lemma geb_true (a b : R) : geb a b = true <-> b <= a.
Proof. apply leb_true. Qed.

(** Splits every comparison, [Rabs], [Rmin], [Rmax] and [Math.sign] of the
    goal into its cases and closes the linear ones. *)
Ltac rcases :=
  unfold ltb, leb, gtb, geb, Math.sign, Rmin, Rmax, Rabs in *;
  repeat match goal with
    | |- context [Rlt_dec ?a ?b] => destruct (Rlt_dec a b)
    | |- context [Rle_dec ?a ?b] => destruct (Rle_dec a b)
    | |- context [Rcase_abs ?a] => destruct (Rcase_abs a)
    | H : context [Rlt_dec ?a ?b] |- _ => destruct (Rlt_dec a b)
    | H : context [Rle_dec ?a ?b] |- _ => destruct (Rle_dec a b)
    | H : context [Rcase_abs ?a] |- _ => destruct (Rcase_abs a)
    end;
  try reflexivity; try lra.

(** ** The velocity stages *)

Lemma clamp_range (kb : KeyboardState) (v : R) : -10 <= clamp kb v <= 24.
Proof. unfold clamp, maxSpeed; destruct (backward kb); rcases. Qed.

Lemma clamp_shrinks (kb : KeyboardState) (v : R) :
  Rabs (clamp kb v) <= Rabs v /\ 0 <= v * clamp kb v.
Proof. unfold clamp, maxSpeed; destruct (backward kb); split; rcases; nra. Qed.

Lemma damping_unfold (kb : KeyboardState) (v delta : R) :
  0 <= delta ->
  damping kb v delta =
    if forward kb || backward kb then v
    else approach0 v (friction kb * delta).
Proof.
  intros Hd. unfold damping, approach0, friction.
  destruct (forward kb), (backward kb), (brake kb); simpl; rcases.
Qed.

Lemma approach0_shrinks (v a : R) :
  0 <= a -> Rabs (approach0 v a) <= Rabs v /\ 0 <= v * approach0 v a.
Proof. intros Ha. unfold approach0. split; rcases; nra. Qed.

Lemma damping_shrinks (kb : KeyboardState) (v delta : R) :
  0 <= delta ->
  Rabs (damping kb v delta) <= Rabs v /\ 0 <= v * damping kb v delta.
Proof.
  intros Hd. rewrite damping_unfold by assumption.
  destruct (forward kb || backward kb).
  - split; [lra | nra].
  - apply approach0_shrinks. unfold friction.
    destruct (forward kb || backward kb || brake kb); nra.
Qed.

Lemma drive_range (kb : KeyboardState) (v delta : R) :
  0 <= delta -> Rabs (drive kb v delta) <= 24.
Proof.
  intros Hd. unfold drive.
  pose proof (clamp_range kb (braking kb (throttle kb v delta) delta)) as Hc.
  fold (clamped kb v delta) in Hc.
  set (c := clamped kb v delta) in *.
  destruct (damping_shrinks kb c delta Hd) as [H _].
  assert (Rabs c <= 24) by (unfold Rabs; destruct (Rcase_abs c); lra).
  lra.
Qed.

(** ** Collision resolution *)

Lemma settle_kvel level kb delta k :
  kvel (settle level kb delta k) =
    drive kb (kvel k) delta
    * (if hitsBounds level kb delta k then -0.3 else 1)
    * (if hitsObstacle level kb delta k then -0.4 else 1).
Proof.
  unfold settle, hitsObstacle, hitsBounds, resolveObstacles, resolveBounds.
  destruct (outOfBounds level (kpos (move kb delta k))); simpl;
    match goal with |- context [collided ?l ?p] => destruct (collided l p) end;
    simpl; lra.
Qed.

Lemma settle_kbumps level kb delta k :
  kbumps (settle level kb delta k) =
    (kbumps k + b2n (hitsBounds level kb delta k)
              + b2n (hitsObstacle level kb delta k))%nat.
Proof.
  unfold settle, hitsObstacle, hitsBounds, resolveObstacles, resolveBounds.
  destruct (outOfBounds level (kpos (move kb delta k))); simpl;
    match goal with |- context [collided ?l ?p] => destruct (collided l p) end;
    simpl; lia.
Qed.

Lemma settle_kpos level kb delta k :
  kpos (settle level kb delta k) =
    if hitsBounds level kb delta k || hitsObstacle level kb delta k
    then kpos k else kpos (move kb delta k).
Proof.
  unfold settle, hitsObstacle, hitsBounds, resolveObstacles, resolveBounds.
  destruct (outOfBounds level (kpos (move kb delta k))); simpl;
    match goal with |- context [collided ?l ?p] => destruct (collided l p) end;
    reflexivity.
Qed.

Lemma settle_krot level kb delta k :
  krot (settle level kb delta k) =
    krot k + turnAmount kb (drive kb (kvel k) delta) delta.
Proof.
  unfold settle, resolveObstacles, resolveBounds.
  destruct (outOfBounds level (kpos (move kb delta k))); simpl;
    match goal with |- context [collided ?l ?p] => destruct (collided l p) end;
    reflexivity.
Qed.

Lemma settle_shrinks level kb delta k :
  Rabs (kvel (settle level kb delta k)) <= Rabs (drive kb (kvel k) delta).
Proof.
  rewrite settle_kvel.
  destruct (hitsBounds level kb delta k), (hitsObstacle level kb delta k);
    rcases.
Qed.

Lemma settle_range level kb delta k :
  0 <= delta -> Rabs (kvel (settle level kb delta k)) <= 24.
Proof.
  intros Hd. pose proof (settle_shrinks level kb delta k).
  pose proof (drive_range kb (kvel k) delta Hd). lra.
Qed.

Lemma overSpeed_true (v : R) : overSpeed v = true <-> 35 < Rabs v.
Proof. apply gtb_true. Qed.

Lemma overSpeed_small (v : R) : Rabs v <= 24 -> overSpeed v = false.
Proof. intros H. unfold overSpeed, gtb. apply ltb_false. lra. Qed.

(** The state and the calls a frame with a car and [0 <= delta] ends with:
    the over-speed branch is not taken. *)
Lemma useFrame_car level kb s delta car :
  0 <= delta -> carRef s = Some car ->
  let k := settle level kb delta (kinOf car s) in
  useFrame level kb s delta =
    (mkLoop (Some (mkGroup (kpos k) (krot k)))
            (if arrives level k then 0 else kvel k)
            (goalPulse s + delta) (timeRef s + delta) (kbumps k),
     if arrives level k then [onSuccess (timeRef s + delta) (kbumps k)] else []).
Proof.
  intros Hd Hc k. unfold useFrame. rewrite Hc. fold (kinOf car s). fold k.
  assert (Hv : overSpeed (if arrives level k then 0 else kvel k) = false).
  { apply overSpeed_small. destruct (arrives level k).
    - rewrite Rabs_R0. lra.
    - apply settle_range, Hd. }
  rewrite Hv. reflexivity.
Qed.

Lemma useFrame_nocar level kb s delta :
  carRef s = None ->
  useFrame level kb s delta =
    (mkLoop None (velocity s) (goalPulse s + delta) (timeRef s + delta)
            (bumpsRef s), []).
Proof. intros Hc. unfold useFrame. rewrite Hc. reflexivity. Qed.

Lemma useFrame_no_crash level kb s delta :
  0 <= delta -> ~ In onCrash (snd (useFrame level kb s delta)).
Proof.
  intros Hd. destruct (carRef s) as [car|] eqn:Hc.
  - rewrite (useFrame_car level kb s delta car Hd Hc). simpl.
    destruct (arrives _ _); simpl; intuition discriminate.
  - rewrite useFrame_nocar by assumption. simpl. tauto.
Qed.

(** ** [Math.atan2(Math.sin(d), Math.cos(d))] normalizes an angle *)








(** ** Evaluating the model on concrete inputs *)

(** Unfolds the model's own definitions, leaving the real-number
    operations in place. *)
Ltac sim :=
  cbv beta iota zeta delta
    [x y z bmin bmax position size height width bheight
     id name start startRotation goalPosition goalRotation goalSize
     obstacles bounds forward backward left right brake
     gposition rotation_y carRef velocity goalPulse timeRef bumpsRef
     kpos krot kvel kbumps gameState resetSignal totalTime totalBumps
     app loop fst snd
     V3.add V3.sub V3.multiplyScalar V3.setY V3.addScaledVector
     V3.unitZ_applyAxisAngleY B3.containsPoint B3.intersectsBox
     computeBoundingBox carSize boundsBox heightOr2 obstacleBox
     obstacleBoxes goalBox obst resetCarState
     accel brakeForce maxSpeed friction throttle braking clamp clamped
     damping drive steerInput steerIntensity steerSpeed turnAmount
     move outOfBounds resolveBounds carBox collided resolveObstacles
     settle inGoal arrives overSpeed kinOf hitsBounds hitsObstacle
     noKeys keysForward keysBrake b2n level1 level2 level3
     map existsb negb andb orb gtb geb].

(** Decides the comparisons of the goal one at a time, each by linear
    arithmetic. *)
Ltac rdecide :=
  repeat match goal with
    | |- context [ltb ?a ?b] =>
        first [ rewrite (proj2 (ltb_true a b)) by lra
              | rewrite (proj2 (ltb_false a b)) by lra ]
    | |- context [leb ?a ?b] =>
        first [ rewrite (proj2 (leb_true a b)) by lra
              | rewrite (proj2 (leb_false a b)) by lra ]
    | |- context [Rmax ?a ?b] =>
        first [ rewrite (Rmax_left a b) by lra
              | rewrite (Rmax_right a b) by lra ]
    | |- context [Rmin ?a ?b] =>
        first [ rewrite (Rmin_left a b) by lra
              | rewrite (Rmin_right a b) by lra ]
    | |- context [Rabs ?a] =>
        first [ rewrite (Rabs_pos_eq a) by lra
              | rewrite (Rabs_left1 a) by lra ]
    | |- context [Rlt_dec ?a ?b] =>
        destruct (Rlt_dec a b); [ try (exfalso; lra) | try (exfalso; lra) ]
    | |- context [Rle_dec ?a ?b] =>
        destruct (Rle_dec a b); [ try (exfalso; lra) | try (exfalso; lra) ]
    end;
  sim.


Lemma turnAmount_noKeys (v delta : R) : turnAmount noKeys v delta = 0.
Proof. unfold turnAmount, steerInput. simpl. lra. Qed.

Example drive_coasting : drive noKeys 10 0.1 = 9.2.
Proof. sim. unfold Math.sign. rdecide. lra. Qed.

Example drive_braking : drive keysBrake 20 0.1 = 16.
Proof. sim. unfold Math.sign. rdecide. lra. Qed.

(** ** Passive damping *)

(** C1, as the spec states it, fails: with the forward key held the
    velocity is not damped at all.  From velocity 10 with [delta = 0.1]
    the tick works with 12.2, where a decay of 5 units/s^2 would give
    11.7. *)
Lemma forward_held_not_damped :
  drive keysForward 10 0.1 = 12.2 /\
  approach0 (clamped keysForward 10 0.1) (5 * 0.1) = 11.7 /\
  drive keysForward 10 0.1 <> approach0 (clamped keysForward 10 0.1) (5 * 0.1).
Proof.
  assert (E1 : drive keysForward 10 0.1 = 12.2) by (sim; rdecide; lra).
  assert (E2 : approach0 (clamped keysForward 10 0.1) (5 * 0.1) = 11.7)
    by (unfold approach0; sim; rdecide; lra).
  rewrite E1, E2. repeat split; lra.
Qed.

(** C1, amended: for every velocity, keys and [delta > 0], the damping
    stage moves the clamped velocity toward zero by [8 * delta] when none
    of forward, backward, brake is held, by [5 * delta] when only the
    brake of the three is held, and leaves it as it is when forward or
    backward is held; it never changes the sign of the velocity and never
    increases its magnitude. *)
Theorem damping_by_keys (kb : KeyboardState) (v delta : R) :
  0 < delta ->
  (forward kb = false -> backward kb = false -> brake kb = false ->
     drive kb v delta = approach0 (clamped kb v delta) (8 * delta)) /\
  (forward kb = false -> backward kb = false -> brake kb = true ->
     drive kb v delta = approach0 (clamped kb v delta) (5 * delta)) /\
  (forward kb = true \/ backward kb = true ->
     drive kb v delta = clamped kb v delta) /\
  0 <= clamped kb v delta * drive kb v delta /\
  Rabs (drive kb v delta) <= Rabs (clamped kb v delta).
Proof.
  intros Hd. assert (Hd' : 0 <= delta) by lra.
  unfold drive. rewrite damping_unfold by assumption. unfold friction.
  repeat split.
  - intros -> -> ->. reflexivity.
  - intros -> -> ->. reflexivity.
  - intros [-> | ->]; [reflexivity | now rewrite orb_true_r].
  - rewrite <- damping_unfold by assumption. apply damping_shrinks, Hd'.
  - rewrite <- damping_unfold by assumption. apply damping_shrinks, Hd'.
Qed.

Lemma damping_by_keys_witness :
  0 < 0.1 /\ drive keysBrake 20 0.1 = approach0 (clamped keysBrake 20 0.1) (5 * 0.1).
Proof.
  split; [lra|].
  apply (damping_by_keys keysBrake 20 0.1); [lra | reflexivity ..].
Defined.

(** ** The over-speed fault *)

Lemma useFrame_signalsCrashed level kb s delta :
  0 <= delta -> signalsCrashed (snd (useFrame level kb s delta)) = false.
Proof.
  intros Hd. destruct (carRef s) as [car|] eqn:Hc.
  - rewrite (useFrame_car level kb s delta car Hd Hc). simpl.
    destruct (arrives _ _); reflexivity.
  - rewrite useFrame_nocar by assumption. reflexivity.
Qed.

Lemma useFrame_velocity_range level kb s delta car :
  0 <= delta -> carRef s = Some car ->
  Rabs (velocity (fst (useFrame level kb s delta))) <= 24.
Proof.
  intros Hd Hc. rewrite (useFrame_car level kb s delta car Hd Hc). simpl.
  destruct (arrives _ _).
  - rewrite Rabs_R0. lra.
  - apply settle_range, Hd.
Qed.

(** C9: for every level, state, keys and [delta >= 0] the frame does not
    call [onCrash]: the clamp leaves the velocity in [-10, 24], the
    damping, the two restitutions and the zeroing on arrival do not
    increase its magnitude, so with a car in the scene the velocity the
    over-speed test reads has magnitude at most 24. *)
Theorem never_crashes level kb s delta :
  0 <= delta ->
  signalsCrashed (snd (useFrame level kb s delta)) = false /\
  (forall v, -10 <= clamped kb v delta <= 24) /\
  (forall v, Rabs (drive kb v delta) <= Rabs (clamped kb v delta)) /\
  (forall k, Rabs (kvel (settle level kb delta k))
             <= Rabs (drive kb (kvel k) delta)) /\
  (forall car, carRef s = Some car ->
     Rabs (velocity (fst (useFrame level kb s delta))) <= 24 /\
     overSpeed (velocity (fst (useFrame level kb s delta))) = false).
Proof.
  intros Hd. split; [apply useFrame_signalsCrashed, Hd|].
  split; [intros v; apply clamp_range|].
  split; [intros v; apply damping_shrinks, Hd|].
  split; [intros k; apply settle_shrinks|].
  intros car Hc.
  pose proof (useFrame_velocity_range level kb s delta car Hd Hc) as H.
  split; [exact H | apply overSpeed_small, H].
Qed.

Lemma never_crashes_witness :
  0 <= 0.1 /\ signalsCrashed (snd (useFrame level1 keysForward fastState 0.1)) = false.
Proof.
  split; [lra|]. apply (never_crashes level1 keysForward fastState 0.1). lra.
Defined.



(** The bound on [delta] matters: with a negative [delta] the damping
    adds speed, and the over-speed branch is taken. *)
Example negative_delta_trips_over_speed :
  signalsCrashed (snd (useFrame level1 noKeys wallState (-100))) = true.
Proof.
  assert (D : drive noKeys 10 (-100) = 810)
    by (sim; unfold Math.sign; rdecide; lra).
  assert (M : move noKeys (-100) (mkKin (vec3 0 0.4 14.4) 0 10 0)
              = mkKin (vec3 0 0.4 (-80985.6)) 0 810 0).
  { unfold move. cbn [kvel krot kpos kbumps]. rewrite D.
    rewrite turnAmount_noKeys. replace (0 + 0) with 0 by lra.
    unfold V3.unitZ_applyAxisAngleY, V3.addScaledVector. cbn [x y z].
    rewrite sin_0, cos_0. f_equal. f_equal; lra. }
  assert (S : settle level1 noKeys (-100) (mkKin (vec3 0 0.4 14.4) 0 10 0)
              = mkKin (vec3 0 0.4 14.4) 0 (-243) 1).
  { unfold settle. rewrite M. cbn [kpos].
    assert (B : outOfBounds level1 (vec3 0 0.4 (-80985.6)) = true)
      by (sim; rdecide; reflexivity).
    unfold resolveBounds. cbn [kpos krot kvel kbumps]. rewrite B.
    assert (O : collided level1 (vec3 0 0.4 14.4) = false)
      by (sim; rdecide; reflexivity).
    unfold resolveObstacles. cbn [kpos krot kvel kbumps]. rewrite O.
    f_equal. lra. }
  unfold useFrame, wallState, kinOf.
  cbn [carRef gposition rotation_y velocity bumpsRef]. rewrite S.
  assert (A : arrives level1 (mkKin (vec3 0 0.4 14.4) 0 (-243) 1) = false).
  { unfold arrives. cbn [kpos kvel krot].
    assert (G : inGoal level1 (vec3 0 0.4 14.4) = false)
      by (sim; rdecide; reflexivity).
    rewrite G. reflexivity. }
  rewrite A. cbn [kvel].
  assert (V : overSpeed (-243) = true) by (apply overSpeed_true; rcases).
  rewrite V. reflexivity.
Qed.

(** ** Coasting: no key held *)

Lemma drive_noKeys_shrinks (v delta : R) :
  0 <= delta ->
  Rabs (drive noKeys v delta) <= Rabs v /\ 0 <= v * drive noKeys v delta.
Proof.
  intros Hd. unfold drive.
  assert (E : clamped noKeys v delta = clamp noKeys v).
  { unfold clamped, braking, throttle, accel. simpl. f_equal. lra. }
  rewrite E.
  destruct (clamp_shrinks noKeys v) as [C1 C2].
  destruct (damping_shrinks noKeys (clamp noKeys v) delta Hd) as [D1 D2].
  split; [lra|].
  set (c := clamp noKeys v) in *. set (d := damping noKeys c delta) in *.
  destruct (Req_dec c 0) as [Hc|Hc].
  - assert (d = 0) by (rewrite Hc, Rabs_R0 in D1; revert D1; rcases).
    subst d. rewrite H. lra.
  - assert (0 <= (v * d) * (c * c)).
    { replace (v * d * (c * c)) with ((v * c) * (c * d)) by ring. nra. }
    assert (0 < c * c) by nra. nra.
Qed.

Lemma useFrame_coasting level s delta :
  0 <= delta ->
  Rabs (velocity (fst (useFrame level noKeys s delta))) <= Rabs (velocity s) /\
  (bumpsRef (fst (useFrame level noKeys s delta)) <> (bumpsRef s + 1)%nat ->
   0 <= velocity s * velocity (fst (useFrame level noKeys s delta))).
Proof.
  intros Hd. destruct (carRef s) as [car|] eqn:Hc.
  - rewrite (useFrame_car level noKeys s delta car Hd Hc). cbn [fst velocity bumpsRef].
    set (k := kinOf car s).
    destruct (drive_noKeys_shrinks (kvel k) delta Hd) as [D1 D2].
    pose proof (settle_shrinks level noKeys delta k) as S1.
    change (kvel k) with (velocity s) in *.
    split.
    + destruct (arrives _ _); [rewrite Rabs_R0; apply Rabs_pos | lra].
    + rewrite settle_kbumps. change (kbumps k) with (bumpsRef s).
      destruct (arrives _ _); [lra|].
      rewrite settle_kvel. change (kvel k) with (velocity s).
      destruct (hitsBounds level noKeys delta k),
               (hitsObstacle level noKeys delta k); simpl; intros Hb;
        try (exfalso; lia); nra.
  - rewrite useFrame_nocar by assumption. cbn [fst velocity bumpsRef].
    split; [lra|]. intros _. nra.
Qed.

Lemma wall_move :
  move noKeys 0.1 (mkKin (vec3 0 0.4 14.4) 0 10 0)
  = mkKin (vec3 0 0.4 15.32) 0 9.2 0.
Proof.
  unfold move. cbn [kvel krot kpos kbumps]. rewrite drive_coasting.
  rewrite turnAmount_noKeys. replace (0 + 0) with 0 by lra.
  unfold V3.unitZ_applyAxisAngleY, V3.addScaledVector. cbn [x y z].
  rewrite sin_0, cos_0. f_equal. f_equal; lra.
Qed.

Lemma wall_settle :
  settle level1 noKeys 0.1 (mkKin (vec3 0 0.4 14.4) 0 10 0)
  = mkKin (vec3 0 0.4 14.4) 0 (-2.76) 1.
Proof.
  unfold settle. rewrite wall_move. cbn [kpos].
  assert (B : outOfBounds level1 (vec3 0 0.4 15.32) = true)
    by (sim; rdecide; reflexivity).
  unfold resolveBounds. cbn [kpos krot kvel kbumps]. rewrite B.
  assert (O : collided level1 (vec3 0 0.4 14.4) = false)
    by (sim; rdecide; reflexivity).
  unfold resolveObstacles. cbn [kpos krot kvel kbumps]. rewrite O.
  f_equal. lra.
Qed.

(** C6, as the spec states it, fails: with no key held, a car of level 1
    at [z = 14.4] heading for the wall at velocity 10 leaves the tick
    ([delta = 0.1]) with velocity -2.76: the boundary restitution turned
    the sign. *)
Lemma wall_bounce_flips_sign :
  velocity wallState = 10 /\
  velocity (frames level1 noKeys 0.1 1 wallState) = -2.76 /\
  bumpsRef (frames level1 noKeys 0.1 1 wallState) = 1%nat.
Proof.
  split; [reflexivity|].
  cbn [frames]. unfold useFrame, wallState, kinOf.
  cbn [carRef gposition rotation_y velocity bumpsRef].
  rewrite wall_settle.
  assert (A : arrives level1 (mkKin (vec3 0 0.4 14.4) 0 (-2.76) 1) = false).
  { unfold arrives. cbn [kpos kvel krot].
    assert (G : inGoal level1 (vec3 0 0.4 14.4) = false) by (sim; rdecide; reflexivity).
    rewrite G. reflexivity. }
  rewrite A. cbn [kvel].
  assert (V : overSpeed (-2.76) = false) by (apply overSpeed_small; rcases).
  rewrite V. split; reflexivity.
Qed.

(** With no key held the damping takes [8 * delta] off the magnitude of
    the velocity, or all of it. *)
Lemma drive_noKeys_decays (v delta : R) :
  0 <= delta ->
  Rabs (drive noKeys v delta) <= Rmax 0 (Rabs v - 8 * delta).
Proof.
  intros Hd. unfold drive.
  assert (E : clamped noKeys v delta = clamp noKeys v).
  { unfold clamped, braking, throttle, accel. simpl. f_equal. lra. }
  rewrite E, damping_unfold by assumption. cbn [noKeys forward backward orb].
  assert (F : friction noKeys = 8) by reflexivity. rewrite F.
  destruct (clamp_shrinks noKeys v) as [C _].
  set (c := clamp noKeys v) in *. unfold approach0.
  revert C. rcases.
Qed.

Lemma useFrame_coasting_decays level s delta car :
  0 <= delta -> carRef s = Some car ->
  Rabs (velocity (fst (useFrame level noKeys s delta)))
    <= Rmax 0 (Rabs (velocity s) - 8 * delta).
Proof.
  intros Hd Hc. rewrite (useFrame_car level noKeys s delta car Hd Hc).
  cbn [fst velocity].
  destruct (arrives _ _); [rewrite Rabs_R0; apply Rmax_l|].
  pose proof (settle_shrinks level noKeys delta (kinOf car s)) as S1.
  pose proof (drive_noKeys_decays (kvel (kinOf car s)) delta Hd) as D.
  change (kvel (kinOf car s)) with (velocity s) in *. lra.
Qed.

Lemma frames_keep_car level kb delta (n : nat) s car :
  0 <= delta -> carRef s = Some car ->
  exists car', carRef (frames level kb delta n s) = Some car'.
Proof.
  intros Hd Hc. induction n as [|n [car' IH]]; [exists car; exact Hc|].
  cbn [frames]. rewrite (useFrame_car level kb _ delta car' Hd IH).
  cbn [fst carRef]. eexists. reflexivity.
Qed.

Lemma frames_coasting_decay level s delta (n : nat) car :
  0 <= delta -> carRef s = Some car ->
  Rabs (velocity (frames level noKeys delta n s))
    <= Rmax 0 (Rabs (velocity s) - 8 * INR n * delta).
Proof.
  intros Hd Hc. induction n as [|n IH].
  - cbn [frames INR]. pose proof (Rabs_pos (velocity s)). rcases.
  - destruct (frames_keep_car level noKeys delta n s car Hd Hc) as [car' Hc'].
    pose proof (useFrame_coasting_decays level
                  (frames level noKeys delta n s) delta car' Hd Hc') as D.
    cbn [frames]. rewrite S_INR.
    set (vn := Rabs (velocity (frames level noKeys delta n s))) in *.
    set (v1 := Rabs (velocity (fst (useFrame level noKeys
                                      (frames level noKeys delta n s) delta)))) in *.
    set (v0 := Rabs (velocity s)) in *.
    assert (M : 0 <= INR n * delta) by (pose proof (pos_INR n); nra).
    set (m := INR n * delta) in *.
    replace (8 * (INR n + 1) * delta) with (8 * m + 8 * delta)
      by (unfold m; ring).
    replace (8 * INR n * delta) with (8 * m) in IH by (unfold m; ring).
    revert IH D. unfold Rmax.
    repeat match goal with
      | |- context [Rle_dec ?a ?b] => destruct (Rle_dec a b)
      end; intros; lra.
Qed.

(** C6, amended: for every [delta > 0], every initial state with the car
    in the scene and no key held, each further frame takes at least
    [8 * delta] off the magnitude of the velocity, or brings it to zero:
    after [n] frames the magnitude is at most
    [max 0 (|v| - 8 * n * delta)], and the velocity is exactly zero once
    [8 * n * delta] reaches [|v|].  The velocity keeps its sign unless
    exactly one of the two collision tests fired in that frame (the bump
    counter went up by exactly one). *)
Theorem coasting_velocity level s delta (n : nat) car :
  0 < delta -> carRef s = Some car ->
  Rabs (velocity (frames level noKeys delta (S n) s))
    <= Rmax 0 (Rabs (velocity (frames level noKeys delta n s)) - 8 * delta) /\
  Rabs (velocity (frames level noKeys delta (S n) s))
    <= Rabs (velocity (frames level noKeys delta n s)) /\
  (bumpsRef (frames level noKeys delta (S n) s)
     <> (bumpsRef (frames level noKeys delta n s) + 1)%nat ->
   0 <= velocity (frames level noKeys delta n s)
        * velocity (frames level noKeys delta (S n) s)) /\
  Rabs (velocity (frames level noKeys delta n s))
    <= Rmax 0 (Rabs (velocity s) - 8 * INR n * delta) /\
  (Rabs (velocity s) <= 8 * INR n * delta ->
   velocity (frames level noKeys delta n s) = 0).
Proof.
  intros Hd Hc. assert (Hd' : 0 <= delta) by lra.
  destruct (frames_keep_car level noKeys delta n s car Hd' Hc) as [car' Hc'].
  pose proof (frames_coasting_decay level s delta n car Hd' Hc) as N.
  split.
  { cbn [frames]. apply (useFrame_coasting_decays _ _ _ car'); assumption. }
  split; [cbn [frames]; apply useFrame_coasting; exact Hd'|].
  split; [cbn [frames]; apply useFrame_coasting; exact Hd'|].
  split; [exact N|].
  intros Hz.
  pose proof (Rabs_pos (velocity (frames level noKeys delta n s))) as P.
  rewrite Rmax_left in N by lra.
  destruct (Req_dec (velocity (frames level noKeys delta n s)) 0) as [E|E];
    [exact E|].
  apply Rabs_pos_lt in E. lra.
Qed.

Lemma coasting_velocity_witness :
  0 < 0.1 /\
  carRef wallState = Some (mkGroup (vec3 0 0.4 14.4) 0) /\
  Rabs (velocity (frames level1 noKeys 0.1 3 wallState))
    <= Rmax 0 (Rabs (velocity (frames level1 noKeys 0.1 2 wallState))
               - 8 * 0.1) /\
  velocity (frames level1 noKeys 0.1 13 wallState) = 0.
Proof.
  split; [lra|]. split; [reflexivity|]. split.
  - apply (coasting_velocity level1 wallState 0.1 2
             (mkGroup (vec3 0 0.4 14.4) 0)); [lra | reflexivity].
  - apply (coasting_velocity level1 wallState 0.1 13
             (mkGroup (vec3 0 0.4 14.4) 0)); [lra | reflexivity |].
    rewrite INR_IZR_INZ. change (Z.of_nat 13) with 13%Z.
    unfold wallState. cbn [velocity]. rewrite Rabs_pos_eq; lra.
Defined.

(** The magnitude after any number of coasting frames is bounded by the
    initial one. *)
Lemma coasting_bounded level s delta (n : nat) :
  0 < delta ->
  Rabs (velocity (frames level noKeys delta n s)) <= Rabs (velocity s).
Proof.
  intros Hd. induction n as [|n IH]; [cbn; lra|].
  destruct (useFrame_coasting level (frames level noKeys delta n s) delta) as [H _];
    [lra|]. cbn [frames]. lra.
Qed.

(** ** Goal evaluation *)


Lemma overSpeed_0 : overSpeed 0 = false.
Proof. apply overSpeed_small. rewrite Rabs_R0. lra. Qed.


Lemma useFrame_not_arrived level kb s delta car :
  carRef s = Some car ->
  arrives level (settle level kb delta (kinOf car s)) = false ->
  signalsArrived (snd (useFrame level kb s delta)) = false.
Proof.
  intros Hc Ha. unfold useFrame. rewrite Hc. fold (kinOf car s).
  rewrite Ha. destruct (overSpeed _); reflexivity.
Qed.





(** The goal volume, read on the ground plane. *)
Lemma inGoal_footprint level (p : Vector3) :
  inGoal level p = true <->
  Rabs (x p - x (goalPosition level)) <= (x (goalSize level) - 0.4) / 2 /\
  Rabs (z p - z (goalPosition level)) <= (z (goalSize level) - 0.4) / 2.
Proof.
  unfold inGoal, B3.containsPoint, goalBox, computeBoundingBox.
  cbn [x y z bmin bmax V3.setY V3.sub V3.add V3.multiplyScalar].
  rewrite !andb_true_iff, !geb_true, !leb_true.
  split.
  - intros [[[[[A B] C] D] E] F]. split; apply Rabs_le; lra.
  - intros [A B]. repeat split; rcases.
Qed.

(** ** Driving into an obstacle *)

Example drive_coasting_20 : drive noKeys 20 0.1 = 19.2.
Proof. sim. unfold Math.sign. rdecide. lra. Qed.

Lemma obstacle_move :
  move noKeys 0.1 (mkKin (vec3 0 0.4 (-9.5)) 0 20 0)
  = mkKin (vec3 0 0.4 (-7.58)) 0 19.2 0.
Proof.
  unfold move. cbn [kvel krot kpos kbumps]. rewrite drive_coasting_20.
  rewrite turnAmount_noKeys. replace (0 + 0) with 0 by lra.
  unfold V3.unitZ_applyAxisAngleY, V3.addScaledVector. cbn [x y z].
  rewrite sin_0, cos_0. f_equal. f_equal; lra.
Qed.

Lemma obstacle_hits :
  hitsBounds level1 noKeys 0.1 (mkKin (vec3 0 0.4 (-9.5)) 0 20 0) = false /\
  hitsObstacle level1 noKeys 0.1 (mkKin (vec3 0 0.4 (-9.5)) 0 20 0) = true.
Proof.
  unfold hitsObstacle, hitsBounds. rewrite obstacle_move. cbn [kpos].
  assert (B : outOfBounds level1 (vec3 0 0.4 (-7.58)) = false)
    by (sim; rdecide; reflexivity).
  unfold resolveBounds. cbn [kpos]. rewrite B. cbn [kpos].
  split; [reflexivity|]. sim. rdecide. reflexivity.
Qed.

(** The velocity a tick that starts at 20 with [delta = 0.1] works with,
    for each combination of the three keys that matter. *)
Lemma drive_from_20 (kb : KeyboardState) :
  drive kb 20 0.1 =
    match forward kb, backward kb, brake kb with
    | false, false, false => 19.2
    | true, false, false => 22.2
    | false, false, true => 16
    | true, false, true => 18.7
    | _, true, _ => 10
    end.
Proof.
  unfold drive, clamped, damping, clamp, braking, throttle, accel, brakeForce,
    maxSpeed, friction.
  destruct (forward kb), (backward kb), (brake kb); cbn [negb andb orb];
    unfold Math.sign; rdecide; lra.
Qed.

Lemma drive_from_20_range (kb : KeyboardState) :
  10 <= drive kb 20 0.1 <= 22.2 /\ drive kb 20 0.1 <> 20.
Proof.
  rewrite drive_from_20.
  destruct (forward kb), (backward kb), (brake kb); repeat split; lra.
Qed.

(** C5, as the spec states it, fails: the restitution applies to the
    velocity after this tick's damping, not to the incoming one.  With
    no key held the car of [obstacleState] ends the tick at velocity
    -7.68, not -8; the position is the one before the tick and the bump
    counter went from 0 to 1. *)
Lemma obstacle_bounce_is_not_minus_8 :
  velocity obstacleState = 20 /\
  velocity (fst (useFrame level1 noKeys obstacleState 0.1)) = -7.68 /\
  carRef (fst (useFrame level1 noKeys obstacleState 0.1))
    = carRef obstacleState /\
  bumpsRef (fst (useFrame level1 noKeys obstacleState 0.1)) = 1%nat.
Proof.
  split; [reflexivity|].
  assert (Hd : 0 <= 0.1) by lra.
  rewrite (useFrame_car level1 noKeys obstacleState 0.1
             (mkGroup (vec3 0 0.4 (-9.5)) 0) Hd eq_refl).
  unfold kinOf, obstacleState. cbn [gposition rotation_y velocity bumpsRef fst carRef].
  destruct obstacle_hits as [HB HO].
  set (k := settle level1 noKeys 0.1 (mkKin (vec3 0 0.4 (-9.5)) 0 20 0)).
  assert (V : kvel k = -7.68).
  { unfold k. rewrite settle_kvel, HB, HO. cbn [kvel].
    rewrite drive_coasting_20. lra. }
  assert (A : arrives level1 k = false).
  { unfold arrives. rewrite V.
    assert (L : ltb (Rabs (-7.68)) 1.2 = false) by (apply ltb_false; rcases).
    rewrite L, andb_false_r. reflexivity. }
  rewrite A, V. unfold k.
  rewrite settle_kpos, settle_kbumps, settle_krot, HB, HO.
  cbn [orb kpos krot kvel kbumps b2n]. rewrite drive_coasting_20.
  rewrite turnAmount_noKeys. replace (0 + 0) with 0 by lra.
  repeat split; reflexivity.
Qed.

(** C5, amended: for a tick with [delta = 0.1] that the car enters at
    velocity 20 and in which the obstacle test fires and the boundary
    test does not, the resulting velocity is -0.4 times the velocity
    after this tick's acceleration, braking, clamp and damping (-7.68
    with none of forward, backward, brake held; never -8), the position
    is the one before the tick, the bump counter is one higher, and no
    callback is called. *)
Theorem obstacle_bounce level kb s car :
  carRef s = Some car -> velocity s = 20 ->
  hitsBounds level kb 0.1 (kinOf car s) = false ->
  hitsObstacle level kb 0.1 (kinOf car s) = true ->
  velocity (fst (useFrame level kb s 0.1)) = drive kb 20 0.1 * -0.4 /\
  velocity (fst (useFrame level kb s 0.1)) <> -8 /\
  (forward kb = false -> backward kb = false -> brake kb = false ->
     velocity (fst (useFrame level kb s 0.1)) = -7.68) /\
  (exists car', carRef (fst (useFrame level kb s 0.1)) = Some car' /\
                gposition car' = gposition car) /\
  bumpsRef (fst (useFrame level kb s 0.1)) = (bumpsRef s + 1)%nat /\
  snd (useFrame level kb s 0.1) = [].
Proof.
  intros Hc Hv HB HO.
  assert (Hd : 0 <= 0.1) by lra.
  rewrite (useFrame_car level kb s 0.1 car Hd Hc). cbn [fst snd velocity carRef bumpsRef].
  set (k := settle level kb 0.1 (kinOf car s)).
  assert (V : kvel k = drive kb 20 0.1 * -0.4).
  { unfold k. rewrite settle_kvel, HB, HO. cbn [kinOf kvel]. rewrite Hv. lra. }
  destruct (drive_from_20_range kb) as [[R1 R2] R3].
  assert (A : arrives level k = false).
  { unfold arrives.
    assert (L : ltb (Rabs (kvel k)) 1.2 = false)
      by (apply ltb_false; rewrite V; rcases).
    rewrite L, andb_false_r. reflexivity. }
  rewrite A, V. repeat split.
  - lra.
  - intros F B Br. rewrite drive_from_20, F, B, Br. lra.
  - eexists. split; [reflexivity|]. cbn [gposition]. unfold k.
    rewrite settle_kpos, HB, HO. reflexivity.
  - unfold k. rewrite settle_kbumps, HB, HO. cbn [kinOf kbumps b2n]. lia.
Qed.

Lemma obstacle_bounce_witness :
  carRef obstacleState = Some (mkGroup (vec3 0 0.4 (-9.5)) 0) /\
  velocity obstacleState = 20 /\
  velocity (fst (useFrame level1 noKeys obstacleState 0.1))
    = drive noKeys 20 0.1 * -0.4 /\
  bumpsRef (fst (useFrame level1 noKeys obstacleState 0.1))
    = (bumpsRef obstacleState + 1)%nat.
Proof.
  split; [reflexivity|]. split; [reflexivity|].
  destruct (obstacle_bounce level1 noKeys obstacleState
              (mkGroup (vec3 0 0.4 (-9.5)) 0) eq_refl eq_refl
              (proj1 obstacle_hits) (proj2 obstacle_hits))
    as [V [_ [_ [_ [B _]]]]].
  split; assumption.
Defined.

(** ** The boundary volume *)

(** C3, as the spec states it, fails: the margin of the boundary volume
    is half a unit on every side, not the car's half-width 0.8 and
    half-depth 1.5.  In level 1 (lot 40 by 30) the volume reaches
    [x = 19.5] and [z = 14.5]; a car centred at [x = 19.5] is inside it
    while its body reaches [x = 20.3], beyond the wall at [x = 20]. *)
Lemma bounds_margin_is_half_unit :
  x (bmax (boundsBox level1)) = 19.5 /\
  z (bmax (boundsBox level1)) = 14.5 /\
  x (bmax (arenaBox level1)) - x carSize / 2 = 19.2 /\
  z (bmax (arenaBox level1)) - z carSize / 2 = 13.5 /\
  outOfBounds level1 (vec3 19.5 0.4 0) = false /\
  x (bmax (bodyBox (vec3 19.5 0.4 0))) = 20.3 /\
  x (bmax (arenaBox level1)) = 20.
Proof.
  unfold arenaBox, bodyBox.
  repeat split; sim; rdecide; try reflexivity; lra.
Qed.

(** C3, amended: for every level the boundary volume is the lot shrunk
    inward by 0.5 on each side in width and in depth, whatever the car's
    footprint: the car's centre passes the boundary test exactly when
    [|x| <= width / 2 - 0.5] and [|z| <= height / 2 - 0.5]. *)
Theorem boundsBox_margin level (p : Vector3) :
  (outOfBounds level p = false <->
     Rabs (x p) <= width (bounds level) / 2 - 0.5 /\
     Rabs (z p) <= bheight (bounds level) / 2 - 0.5) /\
  x (bmax (boundsBox level)) = x (bmax (arenaBox level)) - 0.5 /\
  x (bmin (boundsBox level)) = x (bmin (arenaBox level)) + 0.5 /\
  z (bmax (boundsBox level)) = z (bmax (arenaBox level)) - 0.5 /\
  z (bmin (boundsBox level)) = z (bmin (arenaBox level)) + 0.5.
Proof.
  split.
  - unfold outOfBounds. rewrite negb_false_iff.
    unfold B3.containsPoint, boundsBox, computeBoundingBox.
    cbn [x y z bmin bmax V3.setY V3.sub V3.add V3.multiplyScalar].
    rewrite !andb_true_iff, !geb_true, !leb_true.
    split.
    + intros [[[[[A B] C] D] E] F]. split; apply Rabs_le; lra.
    + intros [A B]. repeat split; rcases.
  - unfold boundsBox, arenaBox, computeBoundingBox.
    cbn [x y z bmin bmax V3.sub V3.add V3.multiplyScalar].
    repeat split; lra.
Qed.

(** ** The controller *)

(** C4: the keyboard path from Complete back to Intro clears both
    totals, and the "Run It Back" button does not: from [finishedApp] the
    key leaves totals 0 and 0, the button leaves 90 and 4 behind the
    Intro state, and the next session counts on from them. *)
Theorem run_it_back_keeps_totals :
  (forall now, handleKeyPress now "Enter" finishedApp = mkApp intro 3 0 0) /\
  (forall now, handleKeyPress now "Space" finishedApp = mkApp intro 3 0 0) /\
  clickRunItBack finishedApp = mkApp intro 3 90 4 /\
  totalTime (clickRunItBack finishedApp) = 90 /\
  totalBumps (clickRunItBack finishedApp) = 4%nat /\
  totalBumps (handleSuccess 10 1 (clickStartPatrol 0 (clickRunItBack finishedApp)))
    = 5%nat.
Proof. repeat split. Qed.

(** Outside Complete no command or crash lowers a total: the time total
    stays and the bump total does not go down. *)
Lemma totals_kept_outside_complete (ac : Action) (a : App) :
  (forall t b, gameState a <> complete t b) ->
  (forall e b, ac <> Call (onSuccess e b)) ->
  totalTime (act ac a) = totalTime a /\
  (totalBumps a <= totalBumps (act ac a))%nat.
Proof.
  intros Hc Hs. destruct ac as [now code|now|now| |[e b|]]; cbn [act dispatch].
  - unfold handleKeyPress.
    destruct (gameState a) eqn:G;
      destruct (String.eqb code "Enter" || String.eqb code "Space")%bool;
      try destruct (String.eqb code "KeyR");
      cbn; try rewrite G; cbn; try (split; [reflexivity | lia]).
    all: exfalso; eapply Hc; reflexivity.
  - unfold clickStartPatrol. destruct (gameState a); cbn; split; (reflexivity || lia).
  - unfold clickNextAssignment. destruct (gameState a); cbn; split; (reflexivity || lia).
  - unfold clickRunItBack.
    destruct (gameState a) eqn:G; cbn; try (split; (reflexivity || lia)).
  - exfalso. eapply Hs. reflexivity.
  - cbn. split; [reflexivity | lia].
Qed.

(** A success folds the level's time and bumps into the totals. *)
Lemma handleSuccess_playing e b a i t :
  gameState a = playing i t ->
  totalTime (handleSuccess e b a) = totalTime a + e /\
  totalBumps (handleSuccess e b a) = (totalBumps a + b)%nat.
Proof. intros G. unfold handleSuccess. rewrite G. cbn. split; reflexivity. Qed.

(** C10: a call of [onSuccess] while the game is not in Playing changes
    nothing: the progression state and both totals stay as they are. *)
Theorem success_ignored_outside_playing e b (a : App) :
  (forall i t, gameState a <> playing i t) ->
  handleSuccess e b a = a /\
  gameState (dispatch (onSuccess e b) a) = gameState a /\
  totalTime (dispatch (onSuccess e b) a) = totalTime a /\
  totalBumps (dispatch (onSuccess e b) a) = totalBumps a.
Proof.
  intros H.
  assert (E : handleSuccess e b a = a).
  { unfold handleSuccess. destruct (gameState a) eqn:G; try reflexivity.
    exfalso. eapply H. reflexivity. }
  cbn [dispatch]. rewrite E. repeat split.
Qed.

Lemma success_ignored_witness :
  (forall i t, gameState clearedApp <> playing i t) /\
  handleSuccess 12.5 1 clearedApp = clearedApp.
Proof.
  assert (H : forall i t, gameState clearedApp <> playing i t)
    by (intros i t; discriminate).
  split; [exact H|].
  apply (success_ignored_outside_playing 12.5 1 clearedApp H).
Defined.

(** ** The crash branch *)

(** When the over-speed test of a frame fires, the frame is the crash
    branch applied to the state the frame had reached. *)
Lemma frame_over_speed kb delta (w : World) level car :
  currentLevel (app w) = Some level ->
  carRef (loop w) = Some car ->
  overSpeed (kvel (settle level kb delta (kinOf car (loop w)))) = true ->
  frame kb delta w =
    (let k := settle level kb delta (kinOf car (loop w)) in
     crashed level
       (mkWorld (app w)
          (mkLoop (Some (mkGroup (kpos k) (krot k))) (kvel k)
                  (goalPulse (loop w) + delta) (timeRef (loop w) + delta)
                  (kbumps k)))).
Proof.
  intros HL Hc Ho. unfold frame, useFrame. rewrite HL, Hc.
  fold (kinOf car (loop w)).
  set (k := settle level kb delta (kinOf car (loop w))) in *.
  assert (A : arrives level k = false).
  { unfold arrives.
    assert (L : ltb (Rabs (kvel k)) 1.2 = false).
    { apply ltb_false. apply overSpeed_true in Ho. lra. }
    rewrite L, andb_false_r. reflexivity. }
  rewrite A, Ho. reflexivity.
Qed.

(** The crash branch, applied to a state it would be taken in: it sets
    the level's elapsed time and its bump counter back to zero. *)
Lemma crash_restarts_clock :
  timeRef (loop drivingWorld) = 5 /\
  timeRef (loop (crashed level1 drivingWorld)) = 0 /\
  bumpsRef (loop drivingWorld) = 2%nat /\
  bumpsRef (loop (crashed level1 drivingWorld)) = 0%nat.
Proof. repeat split. Qed.

(** What the crash branch does in Playing(i): the progression stays in
    Playing(i), the session's bump total goes up by one and its time
    total stays, the car is put back at the level's start position (at
    ride height 0.4) and start heading with velocity 0, and the level's
    elapsed time and bump counter restart from zero. *)
Theorem crash_recovery (w : World) (i : nat) (t : R) level car :
  gameState (app w) = playing i t ->
  currentLevel (app w) = Some level ->
  carRef (loop w) = Some car ->
  gameState (app (crashed level w)) = playing i t /\
  nth_error LEVELS i = Some level /\
  totalBumps (app (crashed level w)) = (totalBumps (app w) + 1)%nat /\
  totalTime (app (crashed level w)) = totalTime (app w) /\
  carRef (loop (crashed level w)) =
    Some (mkGroup (vec3 (x (start level)) 0.4 (z (start level)))
                  (startRotation level)) /\
  velocity (loop (crashed level w)) = 0 /\
  timeRef (loop (crashed level w)) = 0 /\
  bumpsRef (loop (crashed level w)) = 0%nat.
Proof.
  intros G L C. unfold currentLevel in L. rewrite G in L.
  unfold crashed, handleCrash, resetCarState. cbn. rewrite G, C.
  repeat split. exact L.
Qed.

Lemma crash_recovery_witness :
  gameState (app drivingWorld) = playing 0 1000 /\
  currentLevel (app drivingWorld) = Some level1 /\
  totalBumps (app (crashed level1 drivingWorld)) = 1%nat /\
  carRef (loop (crashed level1 drivingWorld)) =
    Some (mkGroup (vec3 (-12) 0.4 14) PI) /\
  timeRef (loop (crashed level1 drivingWorld)) = 0.
Proof.
  split; [reflexivity|]. split; [reflexivity|].
  destruct (crash_recovery drivingWorld 0 1000 level1
              (mkGroup (vec3 3 0.4 12) 0.5) eq_refl eq_refl eq_refl)
    as [_ [_ [B [_ [P [_ [T _]]]]]]].
  repeat split; assumption.
Defined.

(** ** Keyboard state *)

(** Case analysis on a key code: one of the nine bound codes, or none. *)
Ltac code_cases code :=
  destruct (String.eqb_spec code "ArrowUp") as [->|];
    [reflexivity|];
  destruct (String.eqb_spec code "KeyW") as [->|]; [reflexivity|];
  destruct (String.eqb_spec code "ArrowDown") as [->|]; [reflexivity|];
  destruct (String.eqb_spec code "KeyS") as [->|]; [reflexivity|];
  destruct (String.eqb_spec code "ArrowLeft") as [->|]; [reflexivity|];
  destruct (String.eqb_spec code "KeyA") as [->|]; [reflexivity|];
  destruct (String.eqb_spec code "ArrowRight") as [->|]; [reflexivity|];
  destruct (String.eqb_spec code "KeyD") as [->|]; [reflexivity|];
  destruct (String.eqb_spec code "Space") as [->|]; [reflexivity|];
  try reflexivity.

Lemma held_onKey (i : Intent) (pressed : bool) (code : string)
    (s : KeyboardState) :
  held i (onKey pressed code s) =
    if isBound i code then pressed else held i s.
Proof.
  unfold onKey, isBound. destruct i; cbn [boundCodes existsb held];
    code_cases code.
Qed.

Lemma held_fold (i : Intent) (events : list KeyEvent) (s : KeyboardState) :
  held i (fold_left (fun s e => onKey (keyPressed e) (keyCode e) s) events s)
  = lastPress i events (held i s).
Proof.
  revert s. induction events as [|e rest IH]; intros s; [reflexivity|].
  cbn [fold_left lastPress]. rewrite IH, held_onKey. reflexivity.
Qed.

(** X1: after any sequence of key events an intent is held exactly when
    the last event on one of its keys was a press; with no such event it
    is not held. *)
Theorem useKeyboard_last_event (i : Intent) (events : list KeyEvent) :
  held i (useKeyboard events) = lastPress i events false.
Proof.
  unfold useKeyboard. rewrite held_fold. destruct i; reflexivity.
Qed.

(** X2: an event on a key that is not one of the nine bound codes leaves
    the keyboard state as it is. *)
Theorem onKey_unbound (pressed : bool) (code : string) (s : KeyboardState) :
  (forall i, isBound i code = false) ->
  onKey pressed code s = s.
Proof.
  intros H.
  pose proof (H Forward) as HF. pose proof (H Backward) as HB.
  pose proof (H Left) as HL. pose proof (H Right) as HR.
  pose proof (H Brake) as HK.
  unfold isBound in *. cbn [boundCodes existsb] in *.
  rewrite orb_false_r in *.
  unfold onKey. rewrite HF, HB, HL, HR, HK. reflexivity.
Qed.

Lemma onKey_unbound_witness :
  (forall i, isBound i "KeyR" = false) /\
  onKey true "KeyR" keysBrake = keysBrake.
Proof.
  assert (H : forall i, isBound i "KeyR" = false)
    by (intros i; destruct i; reflexivity).
  split; [exact H|]. apply (onKey_unbound true "KeyR" keysBrake H).
Defined.

(** X3: events on keys of different intents commute, and of two events
    on the same key the later one wins. *)
Theorem onKey_commutes (p1 p2 : bool) (c1 c2 : string) (s : KeyboardState) :
  (forall i, isBound i c1 = true -> isBound i c2 = false) ->
  onKey p1 c1 (onKey p2 c2 s) = onKey p2 c2 (onKey p1 c1 s) /\
  onKey p1 c1 (onKey p2 c1 s) = onKey p1 c1 s.
Proof.
  intros H.
  assert (E : forall a b : KeyboardState,
             (forall i, held i a = held i b) -> a = b).
  { intros [f1 b1 l1 r1 k1] [f2 b2 l2 r2 k2] Hh.
    pose proof (Hh Forward). pose proof (Hh Backward). pose proof (Hh Left).
    pose proof (Hh Right). pose proof (Hh Brake). cbn in *. congruence. }
  split; apply E; intros i; rewrite !held_onKey.
  - specialize (H i). destruct (isBound i c1), (isBound i c2);
      try reflexivity. discriminate (H eq_refl).
  - destruct (isBound i c1); reflexivity.
Qed.

Lemma onKey_commutes_witness :
  (forall i, isBound i "KeyW" = true -> isBound i "Space" = false) /\
  onKey true "KeyW" (onKey true "Space" noKeys)
    = onKey true "Space" (onKey true "KeyW" noKeys).
Proof.
  assert (H : forall i, isBound i "KeyW" = true -> isBound i "Space" = false)
    by (intros i; destruct i; cbn; congruence).
  split; [exact H|].
  apply (onKey_commutes true true "KeyW" "Space" noKeys H).
Defined.

(** ** Boxes *)

Lemma Rabs_le_iff (a b : R) : Rabs a <= b <-> - b <= a <= b.
Proof. split; intros H; [rcases | apply Rabs_le; lra]. Qed.

(** X4: a point is in the box built around [center] with [size] exactly
    when it is within half the size of the centre on each axis; so a box
    of a negative size holds no point, and one of non-negative size holds
    its centre. *)
Theorem computeBoundingBox_contains (center size p : Vector3) :
  (B3.containsPoint (computeBoundingBox center size) p = true <->
     Rabs (x p - x center) <= x size / 2 /\
     Rabs (y p - y center) <= y size / 2 /\
     Rabs (z p - z center) <= z size / 2) /\
  (B3.containsPoint (computeBoundingBox center size) center = true <->
     0 <= x size /\ 0 <= y size /\ 0 <= z size).
Proof.
  unfold B3.containsPoint, computeBoundingBox.
  cbn [x y z bmin bmax V3.sub V3.add V3.multiplyScalar].
  rewrite !andb_true_iff, !geb_true, !leb_true, !Rabs_le_iff.
  split; split; intros H; repeat split; lra.
Qed.

Lemma intersects_computed (c1 s1 c2 s2 : Vector3) :
  B3.intersectsBox (computeBoundingBox c1 s1) (computeBoundingBox c2 s2) = true
  <->
  Rabs (x c1 - x c2) <= (x s1 + x s2) / 2 /\
  Rabs (y c1 - y c2) <= (y s1 + y s2) / 2 /\
  Rabs (z c1 - z c2) <= (z s1 + z s2) / 2.
Proof.
  unfold B3.intersectsBox, computeBoundingBox.
  cbn [x y z bmin bmax V3.sub V3.add V3.multiplyScalar].
  rewrite !andb_true_iff, !geb_true, !leb_true, !Rabs_le_iff.
  split; intros H; repeat split; lra.
Qed.

(** X5: the intersection test is symmetric, and two boxes built around
    centres intersect exactly when the centres are no further apart, on
    each axis, than half the sum of the sizes (touching counts). *)
Theorem intersectsBox_symmetric (a b : Box3) (c1 s1 c2 s2 : Vector3) :
  B3.intersectsBox a b = B3.intersectsBox b a /\
  (B3.intersectsBox (computeBoundingBox c1 s1) (computeBoundingBox c2 s2) = true
   <->
   Rabs (x c1 - x c2) <= (x s1 + x s2) / 2 /\
   Rabs (y c1 - y c2) <= (y s1 + y s2) / 2 /\
   Rabs (z c1 - z c2) <= (z s1 + z s2) / 2).
Proof.
  split; [|apply intersects_computed].
  unfold B3.intersectsBox, geb.
  repeat match goal with
    | |- context [leb ?u ?v] =>
        let e := fresh "e" in set (e := leb u v)
    end.
  repeat match goal with e := _ |- _ => destruct e end; reflexivity.
Qed.

Lemma collided_iff level (p : Vector3) :
  collided level p = true <->
  exists o, In o (obstacles level) /\
    0 <= heightOr2 o /\
    Rabs (x p - x (position o)) <= (Rmax (x (size o) - 0.4) 0.5 + 1.6) / 2 /\
    Rabs (z p - z (position o)) <= (Rmax (z (size o) - 0.4) 0.5 + 2.1) / 2.
Proof.
  unfold collided, obstacleBoxes. rewrite existsb_exists.
  split.
  - intros [b [Hin Hb]]. apply in_map_iff in Hin. destruct Hin as [o [<- Ho]].
    exists o. split; [exact Ho|].
    unfold obstacleBox, carBox in Hb. apply intersects_computed in Hb.
    cbn [x y z V3.setY carSize] in Hb. rewrite !Rabs_le_iff in *.
    repeat split; lra.
  - intros [o [Ho H]]. exists (obstacleBox o). split; [now apply in_map|].
    unfold obstacleBox, carBox. apply intersects_computed.
    cbn [x y z V3.setY carSize]. rewrite !Rabs_le_iff in *.
    repeat split; lra.
Qed.

(** X6: the car collides exactly when, for some obstacle of non-negative
    height, its centre is within half of (the obstacle's shrunk footprint,
    at least 0.5, plus the car's 1.6 by 2.1 collision footprint) of the
    obstacle's centre in [x] and in [z]; the test reads neither the car's
    heading nor its height above the ground. *)
Theorem collided_footprint level (p : Vector3) (h : R) :
  (collided level p = true <->
   exists o, In o (obstacles level) /\
     0 <= heightOr2 o /\
     Rabs (x p - x (position o)) <= (Rmax (x (size o) - 0.4) 0.5 + 1.6) / 2 /\
     Rabs (z p - z (position o)) <= (Rmax (z (size o) - 0.4) 0.5 + 2.1) / 2) /\
  collided level (V3.setY p h) = collided level p.
Proof.
  split; [apply collided_iff|].
  unfold collided, carBox. destruct p as [px py pz]. reflexivity.
Qed.

(** ** A goal too small to enter *)

Lemma inGoal_small level (p : Vector3) :
  x (goalSize level) < 0.4 \/ z (goalSize level) < 0.4 ->
  inGoal level p = false.
Proof.
  intros H. destruct (inGoal level p) eqn:G; [|reflexivity].
  apply inGoal_footprint in G. destruct G as [G1 G2].
  pose proof (Rabs_pos (x p - x (goalPosition level))).
  pose proof (Rabs_pos (z p - z (goalPosition level))).
  lra.
Qed.

(** X7: the goal volume is the goal footprint shrunk by 0.4 with no lower
    bound, so a goal narrower than 0.4 in [x] or in [z] has an empty
    volume: no frame, whatever the state, the keys and [delta], calls
    [onSuccess]. *)
Theorem small_goal_never_reached level kb s delta :
  x (goalSize level) < 0.4 \/ z (goalSize level) < 0.4 ->
  (forall p, inGoal level p = false) /\
  signalsArrived (snd (useFrame level kb s delta)) = false.
Proof.
  intros H. split; [intros p; apply inGoal_small, H|].
  destruct (carRef s) as [car|] eqn:Hc.
  - apply (useFrame_not_arrived level kb s delta car Hc).
    unfold arrives. rewrite inGoal_small by assumption. reflexivity.
  - rewrite useFrame_nocar by assumption. reflexivity.
Qed.

Lemma small_goal_never_reached_witness :
  x (goalSize (mkLevel 9 "Slot" (vec3 0 0 0) 0 (vec3 0 0 0) 0
                 (vec3 0.3 0 12) [] (mkBounds 40 30))) < 0.4 /\
  signalsArrived
    (snd (useFrame (mkLevel 9 "Slot" (vec3 0 0 0) 0 (vec3 0 0 0) 0
                      (vec3 0.3 0 12) [] (mkBounds 40 30))
            noKeys parkedState 0.1)) = false.
Proof.
  assert (H : x (goalSize (mkLevel 9 "Slot" (vec3 0 0 0) 0 (vec3 0 0 0) 0
                 (vec3 0.3 0 12) [] (mkBounds 40 30))) < 0.4)
    by (cbn [goalSize x]; lra).
  split; [exact H|].
  apply (small_goal_never_reached _ noKeys parkedState 0.1 (or_introl H)).
Defined.

(** ** Braking, speed limits and steering *)

(** X8: with the brake held and [delta >= 0], braking moves the velocity
    toward zero by [35 * delta] and stops at zero: it never reverses the
    car. *)
Theorem braking_approaches_zero (kb : KeyboardState) (v delta : R) :
  brake kb = true -> 0 <= delta ->
  braking kb v delta = approach0 v (35 * delta) /\
  0 <= v * braking kb v delta /\
  Rabs (braking kb v delta) <= Rabs v.
Proof.
  intros Hb Hd.
  assert (E : braking kb v delta = approach0 v (35 * delta)).
  { unfold braking, brakeForce, approach0. rewrite Hb. rcases. }
  rewrite E. split; [reflexivity|].
  destruct (approach0_shrinks v (35 * delta)); [lra|]. split; assumption.
Qed.

Lemma braking_approaches_zero_witness :
  brake keysBrake = true /\ 0 <= 0.1 /\
  braking keysBrake 2 0.1 = approach0 2 (35 * 0.1).
Proof.
  split; [reflexivity|]. split; [lra|].
  apply (braking_approaches_zero keysBrake 2 0.1 eq_refl). lra.
Defined.

Lemma drive_limits (kb : KeyboardState) (v delta : R) :
  0 <= delta -> -10 <= drive kb v delta <= maxSpeed kb.
Proof.
  intros Hd. unfold drive.
  assert (C : -10 <= clamped kb v delta <= maxSpeed kb).
  { unfold clamped, clamp, maxSpeed. destruct (backward kb); rcases. }
  destruct (damping_shrinks kb (clamped kb v delta) delta Hd) as [D1 D2].
  set (c := clamped kb v delta) in *. set (d := damping kb c delta) in *.
  assert (M : 10 <= maxSpeed kb) by (unfold maxSpeed; destruct (backward kb); lra).
  revert D1. unfold Rabs. destruct (Rcase_abs d), (Rcase_abs c); intros D1;
    split; try lra; nra.
Qed.

(** X9: with a car in the scene and [delta >= 0], the velocity a frame
    ends with lies between -10 and the speed limit of the keys held: 10
    with backward held, 24 otherwise; the bounces do not take it out of
    that range. *)
Theorem frame_speed_limits level kb s delta car :
  0 <= delta -> carRef s = Some car ->
  -10 <= velocity (fst (useFrame level kb s delta)) <= maxSpeed kb /\
  (backward kb = true ->
     velocity (fst (useFrame level kb s delta)) <= 10) /\
  velocity (fst (useFrame level kb s delta)) <= 24.
Proof.
  intros Hd Hc.
  assert (M : 10 <= maxSpeed kb <= 24 /\ (backward kb = true -> maxSpeed kb = 10)).
  { unfold maxSpeed. destruct (backward kb); split; try lra; intros; try reflexivity; discriminate. }
  assert (R : -10 <= velocity (fst (useFrame level kb s delta)) <= maxSpeed kb).
  { rewrite (useFrame_car level kb s delta car Hd Hc). cbn [fst velocity].
    destruct (arrives _ _); [lra|].
    rewrite settle_kvel.
    pose proof (drive_limits kb (kvel (kinOf car s)) delta Hd) as D.
    destruct (hitsBounds _ _ _ _), (hitsObstacle _ _ _ _); lra. }
  destruct M as [M1 M2]. split; [exact R|]. split; [|lra].
  intros B. rewrite (M2 B) in R. lra.
Qed.

Lemma frame_speed_limits_witness :
  0 <= 0.1 /\ carRef fastState = Some (mkGroup (vec3 0 0.4 12) 0) /\
  velocity (fst (useFrame level1 keysForward fastState 0.1)) <= 24.
Proof.
  split; [lra|]. split; [reflexivity|].
  apply (frame_speed_limits level1 keysForward fastState 0.1
           (mkGroup (vec3 0 0.4 12) 0)); [lra | reflexivity].
Defined.

(** X10: the heading changes by at most [1.7 * |delta|] per frame, not at
    all at rest or with left and right both held or both released, and
    in proportion to the speed below 10. *)
Theorem steering_bounds (kb : KeyboardState) (v delta : R) :
  Rabs (turnAmount kb v delta) <= 1.7 * Rabs delta /\
  turnAmount kb 0 delta = 0 /\
  (left kb = right kb -> turnAmount kb v delta = 0) /\
  (Rabs v <= 10 ->
     Rabs (turnAmount kb v delta) <= 0.17 * Rabs v * Rabs delta).
Proof.
  unfold turnAmount, steerInput, steerIntensity, steerSpeed.
  set (si := (if left kb then 1 else 0) - (if right kb then 1 else 0)).
  assert (S : Rabs si <= 1)
    by (unfold si; destruct (left kb), (right kb); rcases).
  pose proof (Rabs_pos si) as S0.
  pose proof (Rabs_pos v) as V0.
  pose proof (Rabs_pos delta) as D0.
  assert (I : 0 <= Rmin (Rabs v / 10) 1 <= 1)
    by (unfold Rmin; destruct (Rle_dec _ _); lra).
  assert (I0 : Rmin (Rabs 0 / 10) 1 = 0).
  { rewrite Rabs_R0. unfold Rmin. destruct (Rle_dec _ _); lra. }
  assert (B : forall m, 0 <= m ->
            Rabs (si * 1.7 * m * delta) = 1.7 * (Rabs si * m) * Rabs delta).
  { intros m Hm. rewrite !Rabs_mult, (Rabs_pos_eq 1.7), (Rabs_pos_eq m) by lra.
    ring. }
  split; [|split; [|split]].
  - rewrite B by lra.
    assert (0 <= Rabs si * Rmin (Rabs v / 10) 1 <= 1) by nra. nra.
  - rewrite I0. lra.
  - intros E. unfold si. rewrite E. destruct (right kb); lra.
  - intros Hv. rewrite (Rmin_left (Rabs v / 10) 1) by lra.
    rewrite B by lra.
    assert (0 <= Rabs v * Rabs delta) by nra.
    replace (1.7 * (Rabs si * (Rabs v / 10)) * Rabs delta)
      with (0.17 * Rabs si * (Rabs v * Rabs delta)) by lra.
    replace (0.17 * Rabs v * Rabs delta)
      with (0.17 * 1 * (Rabs v * Rabs delta)) by ring.
    nra.
Qed.

(** X11: the translation of a frame moves the car a distance of
    [|velocity * delta|] along the ground, in the direction of the new
    heading, and leaves its height alone. *)
Theorem move_distance (kb : KeyboardState) (delta : R) (k : Kin) :
  (x (kpos (move kb delta k)) - x (kpos k)) ^ 2
  + (z (kpos (move kb delta k)) - z (kpos k)) ^ 2
  = (kvel (move kb delta k) * delta) ^ 2 /\
  y (kpos (move kb delta k)) = y (kpos k) /\
  x (kpos (move kb delta k))
    = x (kpos k) + sin (krot (move kb delta k)) * (kvel (move kb delta k) * delta) /\
  z (kpos (move kb delta k))
    = z (kpos k) + cos (krot (move kb delta k)) * (kvel (move kb delta k) * delta).
Proof.
  unfold move. cbn [kpos kvel krot x y z V3.addScaledVector V3.unitZ_applyAxisAngleY].
  set (a := krot k + turnAmount kb (drive kb (kvel k) delta) delta).
  set (d := drive kb (kvel k) delta * delta).
  pose proof (sin2_cos2 a) as T. unfold Rsqr in T.
  repeat split; try lra.
  replace ((x (kpos k) + sin a * d - x (kpos k)) ^ 2
           + (z (kpos k) + cos a * d - z (kpos k)) ^ 2)
    with ((sin a * sin a + cos a * cos a) * d ^ 2) by ring.
  rewrite T. ring.
Qed.

(** ** Frames from a clear position *)

Lemma clear_true level (p : Vector3) :
  clear level p = true <-> outOfBounds level p = false /\ collided level p = false.
Proof.
  unfold clear. rewrite andb_true_iff, !negb_true_iff. tauto.
Qed.

Lemma settle_from_clear level kb delta (k : Kin) :
  clear level (kpos k) = true ->
  clear level (kpos (settle level kb delta k)) = true /\
  ((kbumps (settle level kb delta k) = kbumps k /\
    kpos (settle level kb delta k) = kpos (move kb delta k)) \/
   (kbumps (settle level kb delta k) = (kbumps k + 1)%nat /\
    kpos (settle level kb delta k) = kpos k)).
Proof.
  intros Hc. apply clear_true in Hc. destruct Hc as [Hb Ho].
  unfold settle, resolveBounds.
  destruct (outOfBounds level (kpos (move kb delta k))) eqn:B.
  - unfold resolveObstacles. cbn [kpos]. rewrite Ho. cbn [kpos kbumps].
    split; [apply clear_true; tauto | right; tauto].
  - unfold resolveObstacles.
    destruct (collided level (kpos (move kb delta k))) eqn:O; cbn [kpos kbumps].
    + split; [apply clear_true; tauto | right; tauto].
    + split; [apply clear_true; tauto | left]. split; reflexivity.
Qed.

(** X12: a frame ([delta >= 0]) that starts with the car inside the
    boundary volume and clear of the obstacles ends so; either the car
    moved and the bump counter is unchanged, or the car is exactly where
    it was and the counter went up by one.  From such a position the
    boundary and the obstacle test never both fire. *)
Theorem frame_keeps_clear level kb s delta car :
  0 <= delta -> carRef s = Some car -> clear level (gposition car) = true ->
  exists car',
    carRef (fst (useFrame level kb s delta)) = Some car' /\
    clear level (gposition car') = true /\
    ((bumpsRef (fst (useFrame level kb s delta)) = bumpsRef s /\
      gposition car' = kpos (move kb delta (kinOf car s))) \/
     (bumpsRef (fst (useFrame level kb s delta)) = (bumpsRef s + 1)%nat /\
      gposition car' = gposition car)).
Proof.
  intros Hd Hc Hcl.
  rewrite (useFrame_car level kb s delta car Hd Hc). cbn [fst carRef bumpsRef].
  eexists. split; [reflexivity|]. cbn [gposition].
  apply (settle_from_clear level kb delta (kinOf car s)). exact Hcl.
Qed.

Lemma frame_keeps_clear_witness :
  0 <= 0.1 /\ carRef parkedState = Some (mkGroup (vec3 12 0.4 (-10)) 0) /\
  clear level1 (vec3 12 0.4 (-10)) = true /\
  exists car',
    carRef (fst (useFrame level1 keysForward parkedState 0.1)) = Some car' /\
    clear level1 (gposition car') = true.
Proof.
  assert (C : clear level1 (vec3 12 0.4 (-10)) = true).
  { unfold clear. sim. rdecide. reflexivity. }
  split; [lra|]. split; [reflexivity|]. split; [exact C|].
  destruct (frame_keeps_clear level1 keysForward parkedState 0.1
              (mkGroup (vec3 12 0.4 (-10)) 0)) as [car' [H1 [H2 _]]];
    [lra | reflexivity | exact C |].
  exists car'. split; assumption.
Defined.

(** ** Clocks and counters over a run of frames *)

Lemma useFrame_clocks level kb s delta :
  0 <= delta ->
  timeRef (fst (useFrame level kb s delta)) = timeRef s + delta /\
  goalPulse (fst (useFrame level kb s delta)) = goalPulse s + delta /\
  (bumpsRef s <= bumpsRef (fst (useFrame level kb s delta)) <= bumpsRef s + 2)%nat /\
  (carRef (fst (useFrame level kb s delta)) = None <-> carRef s = None).
Proof.
  intros Hd. destruct (carRef s) as [car|] eqn:Hc.
  - rewrite (useFrame_car level kb s delta car Hd Hc).
    cbn [fst timeRef goalPulse bumpsRef carRef].
    rewrite settle_kbumps. cbn [kinOf kbumps].
    repeat split; try discriminate.
    + destruct (hitsBounds _ _ _ _), (hitsObstacle _ _ _ _); cbn; lia.
    + destruct (hitsBounds _ _ _ _), (hitsObstacle _ _ _ _); cbn; lia.
  - rewrite useFrame_nocar by assumption.
    cbn [fst timeRef goalPulse bumpsRef carRef].
    repeat split; lia.
Qed.

(** X13: over [n] frames with a fixed [delta >= 0] the level's elapsed
    time and the pulse grow by exactly [n * delta], the bump counter
    never goes down and grows by at most two per frame, and a car in the
    scene stays in the scene. *)
Theorem frames_clocks level kb s delta (n : nat) :
  0 <= delta ->
  timeRef (frames level kb delta n s) = timeRef s + INR n * delta /\
  goalPulse (frames level kb delta n s) = goalPulse s + INR n * delta /\
  (bumpsRef s <= bumpsRef (frames level kb delta n s) <= bumpsRef s + 2 * n)%nat /\
  (carRef (frames level kb delta n s) = None <-> carRef s = None).
Proof.
  intros Hd. induction n as [|n [T [P [B C]]]].
  - cbn [frames INR]. repeat split; try lra; try lia; tauto.
  - destruct (useFrame_clocks level kb (frames level kb delta n s) delta Hd)
      as [T1 [P1 [B1 C1]]].
    change (frames level kb delta (S n) s)
      with (fst (useFrame level kb (frames level kb delta n s) delta)).
    rewrite S_INR, T1, P1, T, P.
    split; [lra|]. split; [lra|]. split; [lia|]. tauto.
Qed.

Lemma frames_clocks_witness :
  0 <= 0.1 /\
  timeRef (frames level1 keysForward 0.1 50 wallState)
    = timeRef wallState + INR 50 * 0.1.
Proof.
  split; [lra|]. apply (frames_clocks level1 keysForward wallState 0.1 50). lra.
Defined.

(** X14: a frame makes at most one call, for any [delta]: none, or
    [onSuccess] with the elapsed time and the bump count the frame ends
    with, or [onCrash]; never both. *)
Theorem frame_calls level kb s delta :
  snd (useFrame level kb s delta) = [] \/
  (snd (useFrame level kb s delta)
     = [onSuccess (timeRef (fst (useFrame level kb s delta)))
                  (bumpsRef (fst (useFrame level kb s delta)))] /\
   velocity (fst (useFrame level kb s delta)) = 0) \/
  (snd (useFrame level kb s delta) = [onCrash] /\
   fst (useFrame level kb s delta)
     = resetCarState level (fst (useFrame level kb s delta))).
Proof.
  unfold useFrame. destruct (carRef s) as [car|]; [|left; reflexivity].
  destruct (arrives level (settle level kb delta (kinOf car s))).
  - rewrite overSpeed_0. right. left. split; reflexivity.
  - destruct (overSpeed _); [|left; reflexivity].
    right. right. split; reflexivity.
Qed.

(** ** The progression over a run of commands *)

Lemma act_valid (ac : Action) (a : App) : validApp a -> validApp (act ac a).
Proof.
  unfold validApp. intros V.
  destruct ac as [now code|now|now| |[e b|]]; cbn [act dispatch].
  - unfold handleKeyPress.
    destruct (gameState a) eqn:G;
      destruct (String.eqb code "Enter" || String.eqb code "Space")%bool;
      try destruct (String.eqb code "KeyR");
      cbn; try rewrite G; cbn; try exact I; lia.
  - unfold clickStartPatrol. destruct (gameState a) eqn:G; cbn;
      try rewrite G; try exact I; lia.
  - unfold clickNextAssignment. destruct (gameState a) eqn:G; cbn;
      try rewrite G; try exact I; lia.
  - unfold clickRunItBack. destruct (gameState a) eqn:G; cbn;
      try rewrite G; try exact I; lia.
  - unfold handleSuccess. destruct (gameState a) eqn:G; try rewrite G;
      try exact I; try lia.
    cbn. destruct (Nat.eqb_spec levelIndex 2); cbn; [exact I | lia].
  - unfold handleCrash. cbn. exact V.
Qed.

Lemma runApp_valid (acs : list Action) (a : App) :
  validApp a -> validApp (runApp acs a).
Proof.
  revert a. induction acs as [|ac acs IH]; intros a V; [exact V|].
  cbn [runApp fold_left]. apply IH, act_valid, V.
Qed.

Lemma currentLevel_index (a : App) :
  currentLevel a = nth_error LEVELS (levelIndexOf a).
Proof. unfold currentLevel, levelIndexOf. destruct (gameState a); reflexivity. Qed.

Lemma valid_currentLevel (a : App) :
  validApp a -> exists level, currentLevel a = Some level /\ In level LEVELS.
Proof.
  unfold validApp. intros V. rewrite currentLevel_index. unfold levelIndexOf.
  assert (H : forall i, (i < 3)%nat ->
            exists level, nth_error LEVELS i = Some level /\ In level LEVELS).
  { intros i Hi. destruct i as [|[|[|i]]]; try lia; cbn;
      eexists; split; try reflexivity; cbn; tauto. }
  destruct (gameState a); apply H; lia.
Qed.

(** X15: whatever commands and callbacks arrive, in whatever order, from
    the intro screen on, the controller's level index stays inside
    [LEVELS]: [currentLevel] is defined, the HUD's level number is between
    1 and 3, and in Success there is a next level to advance to. *)
Theorem level_index_in_range (acs : list Action) :
  (exists level, currentLevel (runApp acs initialApp) = Some level
                 /\ In level LEVELS) /\
  (1 <= hudLevel (runApp acs initialApp) <= 3)%nat /\
  (forall i e b, gameState (runApp acs initialApp) = success i e b ->
     exists next, nth_error LEVELS (i + 1) = Some next).
Proof.
  assert (V : validApp (runApp acs initialApp))
    by (apply runApp_valid; exact I).
  split; [apply valid_currentLevel, V|].
  unfold validApp, hudLevel in *.
  destruct (gameState (runApp acs initialApp)) as [|i t|i e b|t b];
    (split; [lia|]); intros i' e' b' E; try discriminate.
  injection E as <- _ _.
  destruct i as [|[|i]]; try lia; cbn; eexists; reflexivity.
Qed.

Lemma start_step (ac : Action) (a : App) :
  startsGame ac = true -> gameState a = intro ->
  exists now, act ac a = startLevel now 0 a.
Proof.
  intros S G. destruct ac as [now code|now|now| |cb]; try discriminate S.
  - exists now. cbn [act startsGame] in *. unfold handleKeyPress.
    rewrite S, G. reflexivity.
  - exists now. cbn [act]. unfold clickStartPatrol. rewrite G. reflexivity.
Qed.

Lemma advance_step (ac : Action) (a : App) (i : nat) (e : R) (b : nat) :
  advances ac = true -> gameState a = success i e b ->
  exists now, act ac a = startLevel now (i + 1) a.
Proof.
  intros S G. destruct ac as [now code|now|now| |cb]; try discriminate S.
  - exists now. cbn [act advances] in *. unfold handleKeyPress.
    rewrite S, G. reflexivity.
  - exists now. cbn [act]. unfold clickNextAssignment. rewrite G. reflexivity.
Qed.

(** X16: a full session from the intro screen, three levels each started
    or advanced to by any of the commands that do so (Enter, Space or the
    banner's button, in any mix) and then cleared, ends in Complete with
    the three times and the three bump counts added up, in the state and
    in its payload alike. *)
Theorem full_session_totals (go next1 next2 : Action)
    (e1 e2 e3 : R) (b1 b2 b3 : nat) :
  startsGame go = true -> advances next1 = true -> advances next2 = true ->
  runApp [ go; Call (onSuccess e1 b1);
           next1; Call (onSuccess e2 b2);
           next2; Call (onSuccess e3 b3) ] initialApp
  = mkApp (complete (0 + e1 + e2 + e3) (b1 + b2 + b3))
          3 (0 + e1 + e2 + e3) (b1 + b2 + b3).
Proof.
  intros S N1 N2. cbn [runApp fold_left].
  destruct (start_step go initialApp S eq_refl) as [t0 ->].
  cbn [act dispatch].
  set (a1 := handleSuccess e1 b1 (startLevel t0 0 initialApp)).
  destruct (advance_step next1 a1 0 e1 b1 N1 eq_refl) as [t1 ->].
  set (a2 := handleSuccess e2 b2 (startLevel t1 (0 + 1) a1)).
  destruct (advance_step next2 a2 1 e2 b2 N2 eq_refl) as [t2 ->].
  reflexivity.
Qed.

Lemma full_session_totals_witness :
  startsGame (ClickStartPatrol 0) = true /\
  advances (KeyDown 60 "Space") = true /\
  advances (ClickNextAssignment 120) = true /\
  runApp [ ClickStartPatrol 0; Call (onSuccess 30 1);
           KeyDown 60 "Space"; Call (onSuccess 40 0);
           ClickNextAssignment 120; Call (onSuccess 20 3) ] initialApp
  = mkApp (complete (0 + 30 + 40 + 20) (1 + 0 + 3))
          3 (0 + 30 + 40 + 20) (1 + 0 + 3).
Proof.
  split; [reflexivity|]. split; [reflexivity|]. split; [reflexivity|].
  apply (full_session_totals (ClickStartPatrol 0) (KeyDown 60 "Space")
           (ClickNextAssignment 120) 30 40 20 1 0 3); reflexivity.
Defined.

Lemma act_payload (ac : Action) (a : App) :
  ac <> Call onCrash -> payloadAgrees a -> payloadAgrees (act ac a).
Proof.
  unfold payloadAgrees. intros N P.
  destruct ac as [now code|now|now| |[e b|]]; cbn [act dispatch].
  - unfold handleKeyPress.
    destruct (gameState a) eqn:G;
      destruct (String.eqb code "Enter" || String.eqb code "Space")%bool;
      try destruct (String.eqb code "KeyR");
      cbn; try rewrite G; cbn; try exact I; exact P.
  - unfold clickStartPatrol. destruct (gameState a) eqn:G; cbn;
      try rewrite G; try exact I; exact P.
  - unfold clickNextAssignment. destruct (gameState a) eqn:G; cbn;
      try rewrite G; try exact I; exact P.
  - unfold clickRunItBack. destruct (gameState a) eqn:G; cbn;
      try rewrite G; try exact I; exact P.
  - unfold handleSuccess. destruct (gameState a) eqn:G; try rewrite G;
      try exact I; try exact P.
    cbn. destruct (Nat.eqb levelIndex 2); cbn; [split; reflexivity | exact I].
  - congruence.
Qed.

Lemma runApp_payload (acs : list Action) (a : App) :
  Forall (fun ac => ac <> Call onCrash) acs ->
  payloadAgrees a -> payloadAgrees (runApp acs a).
Proof.
  intros F. revert a.
  induction F as [|ac acs N F IH]; intros a Pa; [exact Pa|].
  cbn [runApp fold_left]. apply IH, act_payload; assumption.
Qed.

(** X17: as long as [onCrash] is not called, whenever the game is in
    Complete the totals of its banner are the totals of the HUD. *)
Theorem complete_payload_agrees (acs : list Action) (t : R) (b : nat) :
  Forall (fun ac => ac <> Call onCrash) acs ->
  gameState (runApp acs initialApp) = complete t b ->
  t = totalTime (runApp acs initialApp) /\
  b = totalBumps (runApp acs initialApp).
Proof.
  intros F G.
  assert (P : payloadAgrees (runApp acs initialApp))
    by (apply runApp_payload; [exact F | exact I]).
  unfold payloadAgrees in P. rewrite G in P. exact P.
Qed.

Lemma complete_payload_agrees_witness :
  Forall (fun ac => ac <> Call onCrash) quickSession /\
  gameState (runApp quickSession initialApp) = complete (0 + 0 + 0 + 7) 2 /\
  (0 + 0 + 0 + 7) = totalTime (runApp quickSession initialApp).
Proof.
  assert (F : Forall (fun ac => ac <> Call onCrash) quickSession)
    by (repeat constructor; discriminate).
  split; [exact F|]. split; [reflexivity|].
  apply (complete_payload_agrees quickSession (0 + 0 + 0 + 7) 2 F eq_refl).
Defined.

(** X18: a key other than Enter, Space and R leaves the controller as
    it is; R never touches the progression state or the totals, and
    raises the reset signal exactly in Playing. *)
Theorem handleKeyPress_keys (now : R) (code : string) (a : App) :
  (code <> "Enter"%string -> code <> "Space"%string -> code <> "KeyR"%string ->
     handleKeyPress now code a = a) /\
  gameState (handleKeyPress now "KeyR" a) = gameState a /\
  totalTime (handleKeyPress now "KeyR" a) = totalTime a /\
  totalBumps (handleKeyPress now "KeyR" a) = totalBumps a /\
  resetSignal (handleKeyPress now "KeyR" a)
    = match gameState a with
      | playing _ _ => (resetSignal a + 1)%nat
      | _ => resetSignal a
      end.
Proof.
  split.
  - intros H1 H2 H3. unfold handleKeyPress.
    rewrite (proj2 (String.eqb_neq code "Enter") H1).
    rewrite (proj2 (String.eqb_neq code "Space") H2).
    rewrite (proj2 (String.eqb_neq code "KeyR") H3).
    cbn. destruct (gameState a); reflexivity.
  - unfold handleKeyPress. cbn.
    destruct (gameState a) eqn:G; cbn; rewrite ?G; repeat split.
Qed.

(** ** The whole game *)

Lemma carEffect_same (a : App) (s : LoopState) : carEffect a a s = s.
Proof. unfold carEffect. rewrite !Nat.eqb_refl. reflexivity. Qed.

Lemma dispatch_outside_playing (calls : list Callback) (a : App) :
  (forall i t, gameState a <> playing i t) ->
  signalsCrashed calls = false ->
  fold_left (fun a cb => dispatch cb a) calls a = a.
Proof.
  intros H. induction calls as [|[e b|] calls IH]; intros C.
  - reflexivity.
  - cbn [fold_left dispatch].
    assert (E : handleSuccess e b a = a).
    { unfold handleSuccess. destruct (gameState a) eqn:G; try reflexivity.
      exfalso. eapply H. reflexivity. }
    rewrite E. apply IH. exact C.
  - discriminate C.
Qed.

(** X19: outside Playing a frame ([delta >= 0]) changes nothing in the
    controller, whatever the loop calls; the loop itself goes on running,
    and its state is the frame's, with no reset. *)
Theorem tick_outside_playing kb delta (w : World) :
  0 <= delta ->
  (forall i t, gameState (app w) <> playing i t) ->
  app (tick kb delta w) = app w /\
  loop (tick kb delta w) = loop (frame kb delta w).
Proof.
  intros Hd H.
  assert (A : app (frame kb delta w) = app w).
  { unfold frame. destruct (currentLevel (app w)) as [level|]; [|reflexivity].
    pose proof (useFrame_signalsCrashed level kb (loop w) delta Hd) as C.
    destruct (useFrame level kb (loop w) delta) as [s calls]. cbn [app].
    apply dispatch_outside_playing; assumption. }
  unfold tick. rewrite A, carEffect_same. destruct w; split; reflexivity.
Qed.

Lemma tick_outside_playing_witness :
  0 <= 0.1 /\
  (forall i t, gameState (app (mkWorld clearedApp parkedState)) <> playing i t) /\
  app (tick noKeys 0.1 (mkWorld clearedApp parkedState)) = clearedApp.
Proof.
  assert (H : forall i t,
             gameState (app (mkWorld clearedApp parkedState)) <> playing i t)
    by (intros i t; discriminate).
  split; [lra|]. split; [exact H|].
  apply (tick_outside_playing noKeys 0.1 (mkWorld clearedApp parkedState)); [lra | exact H].
Defined.

(** X20: the restart key in Playing: the level and the totals stay, and
    the effect puts the car back at the level's start pose with velocity,
    elapsed time and bump counter at zero. *)
Theorem restart_resets_level (now : R) (w : World) (i : nat) (t : R) level car :
  gameState (app w) = playing i t ->
  currentLevel (app w) = Some level ->
  carRef (loop w) = Some car ->
  gameState (app (perform (KeyDown now "KeyR") w)) = playing i t /\
  totalTime (app (perform (KeyDown now "KeyR") w)) = totalTime (app w) /\
  totalBumps (app (perform (KeyDown now "KeyR") w)) = totalBumps (app w) /\
  loop (perform (KeyDown now "KeyR") w)
    = mkLoop (Some (mkGroup (vec3 (x (start level)) 0.4 (z (start level)))
                            (startRotation level)))
             0 0 0 0.
Proof.
  intros G L C.
  assert (E : act (KeyDown now "KeyR") (app w)
              = mkApp (playing i t) (resetSignal (app w) + 1)
                      (totalTime (app w)) (totalBumps (app w))).
  { cbn [act]. unfold handleKeyPress. cbn. rewrite !G. cbn. rewrite ?G.
    reflexivity. }
  unfold perform. rewrite E. cbn [app loop gameState totalTime totalBumps].
  repeat split.
  unfold carEffect. cbn [resetSignal].
  assert (N : Nat.eqb (resetSignal (app w)) (resetSignal (app w) + 1) = false)
    by (apply Nat.eqb_neq; lia).
  rewrite N, andb_false_r.
  assert (L' : currentLevel (mkApp (playing i t) (resetSignal (app w) + 1)
                  (totalTime (app w)) (totalBumps (app w))) = Some level).
  { rewrite currentLevel_index in *. unfold levelIndexOf in *.
    cbn [gameState]. rewrite G in L. exact L. }
  rewrite L'. unfold resetCarState. rewrite C. reflexivity.
Qed.

Lemma restart_resets_level_witness :
  gameState (app drivingWorld) = playing 0 1000 /\
  timeRef (loop drivingWorld) = 5 /\
  timeRef (loop (perform (KeyDown 2000 "KeyR") drivingWorld)) = 0 /\
  totalBumps (app (perform (KeyDown 2000 "KeyR") drivingWorld)) = 0%nat.
Proof.
  split; [reflexivity|]. split; [reflexivity|].
  destruct (restart_resets_level 2000 drivingWorld 0 1000 level1
              (mkGroup (vec3 3 0.4 12) 0.5) eq_refl eq_refl eq_refl)
    as [_ [_ [B L]]].
  rewrite L, B. split; reflexivity.
Defined.

(** Every level of the catalog starts the car inside its boundary volume
    and clear of its obstacles. *)
Lemma catalog_starts_clear level (h : R) :
  In level LEVELS -> clear level (V3.setY (start level) h) = true.
Proof.
  intros [<-|[<-|[<-|[]]]]; unfold clear; sim; rdecide; reflexivity.
Qed.

Lemma clear_setY level (p : Vector3) (h : R) :
  clear level (V3.setY p h) = clear level p.
Proof. destruct p. reflexivity. Qed.

Lemma effect_carClear (a a' : App) (s : LoopState) level car :
  validApp a' ->
  currentLevel a = Some level -> In level LEVELS ->
  carRef s = Some car ->
  clear level (gposition car) = true \/ levelIndexOf a <> levelIndexOf a' ->
  carClear (mkWorld a' (carEffect a a' s)).
Proof.
  intros V L Hin C Hc. split; [exact V|]. cbn [app loop].
  destruct (valid_currentLevel a' V) as [level' [L' Hin']].
  unfold carEffect.
  destruct (Nat.eqb_spec (levelIndexOf a) (levelIndexOf a')) as [E|E].
  - destruct (Nat.eqb (resetSignal a) (resetSignal a')); cbn [andb].
    + exists level, car. rewrite currentLevel_index in *. rewrite <- E.
      destruct Hc as [Hc|Hc]; [tauto | contradiction].
    + rewrite L'. exists level', (mkGroup (V3.setY (start level') 0.4) (startRotation level')).
      unfold resetCarState. rewrite C. cbn [carRef gposition].
      repeat split; try assumption. apply catalog_starts_clear, Hin'.
  - cbn [andb]. rewrite L'.
    exists level', (mkGroup (V3.setY (start level') 0.4) (startRotation level')).
    unfold resetCarState. rewrite C. cbn [carRef gposition].
    repeat split; try assumption. apply catalog_starts_clear, Hin'.
Qed.

Lemma dispatch_valid (calls : list Callback) (a : App) :
  validApp a -> validApp (fold_left (fun a cb => dispatch cb a) calls a).
Proof.
  revert a. induction calls as [|cb calls IH]; intros a V; [exact V|].
  cbn [fold_left]. apply IH. apply (act_valid (Call cb)), V.
Qed.

Lemma useFrame_carClear level kb s delta car :
  In level LEVELS -> carRef s = Some car ->
  clear level (gposition car) = true ->
  exists car', carRef (fst (useFrame level kb s delta)) = Some car' /\
               clear level (gposition car') = true.
Proof.
  intros Hin C Hc. unfold useFrame. rewrite C.
  destruct (settle_from_clear level kb delta (kinOf car s) Hc) as [K _].
  destruct (overSpeed _).
  - cbn [fst]. unfold resetCarState. cbn [carRef].
    eexists. split; [reflexivity|]. cbn [gposition].
    apply catalog_starts_clear, Hin.
  - cbn [fst carRef]. eexists. split; [reflexivity|]. exact K.
Qed.

Lemma worldStep_carClear (st : WorldStep) (w : World) :
  carClear w -> carClear (worldStep st w).
Proof.
  intros [V [level [car [L [Hin [C Hc]]]]]].
  destruct st as [kb delta|ac]; cbn [worldStep].
  - unfold tick, frame. rewrite L.
    destruct (useFrame_carClear level kb (loop w) delta car Hin C Hc)
      as [car' [C' Hc']].
    destruct (useFrame level kb (loop w) delta) as [s calls].
    cbn [fst app loop] in *.
    eapply effect_carClear; try eassumption.
    + apply dispatch_valid, V.
    + left. exact Hc'.
  - unfold perform. eapply effect_carClear; try eassumption.
    + apply act_valid, V.
    + left. exact Hc.
Qed.

(** X21: from the mounted game on, through any run of frames (any keys,
    any [delta]) and of commands, the car is in the scene, inside the
    boundary volume of the current level and clear of its obstacles. *)
Theorem car_always_clear (sts : list WorldStep) :
  exists level car,
    currentLevel (app (runWorld sts initialWorld)) = Some level /\
    carRef (loop (runWorld sts initialWorld)) = Some car /\
    outOfBounds level (gposition car) = false /\
    collided level (gposition car) = false.
Proof.
  assert (H : forall w, carClear w -> carClear (runWorld sts w)).
  { induction sts as [|st sts IH]; intros w Hw; [exact Hw|].
    cbn [runWorld fold_left]. apply IH, worldStep_carClear, Hw. }
  assert (I0 : carClear initialWorld).
  { split; [exact I|]. exists level1, (mkGroup (V3.setY (start level1) 0.4) (startRotation level1)).
    repeat split; try reflexivity; [cbn; tauto|].
    apply catalog_starts_clear. cbn. tauto. }
  destruct (H initialWorld I0) as [_ [level [car [L [_ [C Hc]]]]]].
  exists level, car. apply clear_true in Hc. tauto.
Qed.

(** ** The goal marker *)

(** X22: the goal marker's glow stays between 0 and 0.3 and its ring's
    opacity between 0.1 and 0.6 for every value of the pulse; the ring's
    inner radius is below its outer radius for a goal of positive size. *)
Theorem goal_marker_ranges (goalPulse : R) level :
  0 <= goalEmissiveIntensity goalPulse <= 0.3 /\
  0.1 <= ringOpacity goalPulse <= 0.6 /\
  (0 < x (goalSize level) -> 0 < z (goalSize level) ->
     0 < ringInnerRadius level < ringOuterRadius level).
Proof.
  unfold goalEmissiveIntensity, ringOpacity, ringInnerRadius, ringOuterRadius.
  pose proof (SIN_bound (goalPulse * 4)) as [A1 A2].
  pose proof (SIN_bound (goalPulse * 6)) as [B1 B2].
  repeat split; try lra; unfold Rmin; destruct (Rle_dec _ _); lra.
Qed.
